(** * react-gopay-miniapp: the script loader and the bridge client

    A shallow embedding of [useJSAPILoader] and [useMiniapp] (with [call],
    [callWithCallbacks] and the helper wrappers), and the properties of the
    specification that concern them.

    - The page is a [Window]: the optional global [gpContainer], the script
      elements of the [document] and the [console].
    - A hook instance is a record of its React state and refs; the body of
      the effect, its cleanup and the event handlers it installs are state
      transformers on a [System] (window, hook instances, state owned by the
      caller's callbacks).
    - The native bridge is opaque: one invocation of its [call] primitive is
      described by the callbacks it invokes before it returns or throws and
      the callbacks it invokes later. *)

From Stdlib Require Import ZArith String List Bool Lia.
From stdpp Require Import base option list strings gmap.

Open Scope string_scope.
Open Scope list_scope.

(** ** JavaScript values and the response envelope (types.ts) *)

Inductive JSValue : Type :=
| JUndefined
| JNull
| JBool (b : bool)
| JNumber (n : Z)
| JString (s : string)
| JObject (fields : list JSField)
with JSField : Type :=
| Field (key : string) (value : JSValue).

(** [GopaySuccessResponse]: [{ success: true, ret, data? }]. *)
Record GopaySuccessResponse : Type := {
  s_ret : string;
  data : option JSValue
}.

(** [GopayErrorResponse]:
    [{ success: false, error_code, error_type, error_message, ret }]. *)
Record GopayErrorResponse : Type := {
  error_code : string;
  error_type : string;
  error_message : string;
  ret : string
}.

(** [GopayResponse = GopaySuccessResponse | GopayErrorResponse]. *)
Inductive GopayResponse : Type :=
| SuccessResponse (r : GopaySuccessResponse)
| ErrorResponse (e : GopayErrorResponse).

(** The discriminant of the union. *)
Definition success (response : GopayResponse) : bool :=
  match response with
  | SuccessResponse _ => true
  | ErrorResponse _ => false
  end.

(** ** The native bridge, [window.gpContainer] *)

(** What [catch (err)] can receive: an [Error] with its message, or any
    other thrown value. *)
Inductive Thrown : Type :=
| ThrownError (message : string)
| ThrownValue (v : JSValue).

(** One use of a callback handed to the bridge. *)
Inductive Delivery : Type :=
| SuccessChannel (response : GopayResponse)
| FailureChannel (error : GopayErrorResponse).

(** What one invocation of the raw primitive does, as far as the adapter can
    observe: the callbacks it invokes before it returns or throws, the value
    it throws if it throws, and the callbacks it invokes afterwards. *)
Record BridgeRun : Type := {
  during : list Delivery;
  thrown : option Thrown;
  later : list Delivery
}.

Record GpContainer : Type := {
  gp_call : string -> string -> gmap string JSValue -> Z -> BridgeRun
}.

(** The arguments of one invocation of the raw primitive (the two callbacks
    are always the adapter's own). *)
Record BridgeInvocation : Type := {
  className : string;
  methodName : string;
  params : gmap string JSValue;
  timeout : Z
}.

(** ** The document *)

Definition GOPAY_SDK_URL : string :=
  "https://gwk.gopayapi.com/sdk/stable/gp-container.min.js".

Inductive Event : Type :=
| NewEvent (type_ : string).

#[global] Instance Event_eq_dec : EqDecision Event.
Proof. solve_decision. Defined.

(** [f?.()] on state owned by the callback. *)
Definition opt_call {A : Type} (f : option (A -> A)) (a : A) : A :=
  match f with
  | Some g => g a
  | None => a
  end.

Section Page.

(** The state the caller's callbacks act on. *)
Context {C : Type}.

(** A load handler installed by hook instance [owner]: the closure holds
    the instance (its refs and setters) and the [onLoad] of the render
    that installed it. *)
Record LoadHandler : Type := {
  owner : nat;
  captured_onLoad : option (C -> C)
}.

Record ErrorHandler : Type := {
  e_owner : nat;
  captured_onError : option (Event -> C -> C)
}.

(** A script element. Elements are identified by their position in
    [document]; [in_document] is false once the element has been removed
    from its parent ([parentNode] is null). *)
Record ScriptElement : Type := {
  src : string;
  el_async : bool;
  el_defer : bool;
  data_loaded : bool;
  in_document : bool;
  onload : option LoadHandler;
  onerror : option ErrorHandler;
  load_listeners : list LoadHandler
}.

Record Window : Type := {
  gpContainer : option GpContainer;
  document : list ScriptElement;
  console : list (string * Event)
}.

(** [document.querySelector(`script[src="${GOPAY_SDK_URL}"]`)]: the first
    attached script element, in document order, whose [src] is the URL. *)
Definition matches (el : ScriptElement) : Prop :=
  in_document el = true /\ src el = GOPAY_SDK_URL.

#[global] Instance matches_dec (el : ScriptElement) : Decision (matches el).
Proof. unfold matches. apply _. Defined.

Definition querySelector (doc : list ScriptElement) : option (nat * ScriptElement) :=
  list_find matches doc.

(** The number of script elements for the SDK URL in the document. *)
Definition sdk_scripts (doc : list ScriptElement) : nat :=
  length (filter matches doc).

(** ** useJSAPILoader *)

Record JSAPILoaderOptions : Type := {
  onLoad : option (C -> C);
  onError : option (Event -> C -> C);
  skipIfExists : option (Window -> bool);
  async : option bool;
  defer : option bool
}.

(** The state and refs of one hook instance; [cleanup] records whether
    the last run of the effect returned its cleanup function. *)
Record Instance : Type := {
  isLoaded : bool;
  isLoading : bool;
  error : option string;
  scriptRef : option nat;
  loadedRef : bool;
  cleanup : bool
}.

Definition fresh : Instance :=
  {| isLoaded := false; isLoading := false; error := None;
     scriptRef := None; loadedRef := false; cleanup := false |}.

Record System : Type := {
  window : Window;
  instances : list Instance;
  client : C
}.

Definition with_instance (i : nat) (f : Instance -> Instance) (sys : System) : System :=
  {| window := window sys;
     instances := alter f i (instances sys);
     client := client sys |}.

Definition with_client (f : C -> C) (sys : System) : System :=
  {| window := window sys;
     instances := instances sys;
     client := f (client sys) |}.

Definition with_document (f : list ScriptElement -> list ScriptElement)
    (sys : System) : System :=
  {| window := {| gpContainer := gpContainer (window sys);
                  document := f (document (window sys));
                  console := console (window sys) |};
     instances := instances sys;
     client := client sys |}.

Definition with_element (k : nat) (f : ScriptElement -> ScriptElement)
    (sys : System) : System :=
  with_document (alter f k) sys.

Definition set_cleanup (b : bool) (inst : Instance) : Instance :=
  {| isLoaded := isLoaded inst; isLoading := isLoading inst; error := error inst;
     scriptRef := scriptRef inst; loadedRef := loadedRef inst; cleanup := b |}.

(** [loadedRef.current = true; setIsLoaded(true)] *)
Definition mark_loaded (inst : Instance) : Instance :=
  {| isLoaded := true; isLoading := isLoading inst; error := error inst;
     scriptRef := scriptRef inst; loadedRef := true; cleanup := cleanup inst |}.

Definition setIsLoading (b : bool) (inst : Instance) : Instance :=
  {| isLoaded := isLoaded inst; isLoading := b; error := error inst;
     scriptRef := scriptRef inst; loadedRef := loadedRef inst; cleanup := cleanup inst |}.

Definition setError (msg : string) (inst : Instance) : Instance :=
  {| isLoaded := isLoaded inst; isLoading := isLoading inst; error := Some msg;
     scriptRef := scriptRef inst; loadedRef := loadedRef inst; cleanup := cleanup inst |}.

Definition set_scriptRef (k : nat) (inst : Instance) : Instance :=
  {| isLoaded := isLoaded inst; isLoading := isLoading inst; error := error inst;
     scriptRef := Some k; loadedRef := loadedRef inst; cleanup := cleanup inst |}.

(** [skipIfExists && skipIfExists()] *)
Definition skip_requested (o : JSAPILoaderOptions) (w : Window) : bool :=
  match skipIfExists o with
  | Some p => p w
  | None => false
  end.

(** The listener attached to a script found in the document (lines 61-65). *)
Definition reuse_listener (h : LoadHandler) (sys : System) : System :=
  with_client (opt_call (captured_onLoad h))
    (with_instance (owner h) mark_loaded sys).

(** [script.onload] of a script the instance created (lines 77-83); [k] is
    the element the closure holds. *)
Definition own_onload (k : nat) (h : LoadHandler) (sys : System) : System :=
  with_client (opt_call (captured_onLoad h))
    (with_instance (owner h) (fun inst => setIsLoading false (mark_loaded inst))
      (with_element k (fun el =>
         {| src := src el; el_async := el_async el; el_defer := el_defer el;
            data_loaded := true; in_document := in_document el;
            onload := onload el; onerror := onerror el;
            load_listeners := load_listeners el |}) sys)).

Definition errorMsg : string := "Failed to load script: " +:+ GOPAY_SDK_URL.

(** [script.onerror] of a script the instance created (lines 85-91). *)
Definition own_onerror (h : ErrorHandler) (err : Event) (sys : System) : System :=
  let sys1 := with_instance (e_owner h) (fun inst => setIsLoading false (setError errorMsg inst)) sys in
  let sys2 := with_client (match captured_onError h with
                           | Some g => g err
                           | None => fun c => c
                           end) sys1 in
  {| window := {| gpContainer := gpContainer (window sys2);
                  document := document (window sys2);
                  console := console (window sys2) ++ [(errorMsg, err)] |};
     instances := instances sys2;
     client := client sys2 |}.

(** The element built by lines 72-91, before it is appended. *)
Definition new_script (i : nat) (o : JSAPILoaderOptions) : ScriptElement :=
  {| src := GOPAY_SDK_URL;
     el_async := default true (async o);
     el_defer := default false (defer o);
     data_loaded := false;
     in_document := true;
     onload := Some {| owner := i; captured_onLoad := onLoad o |};
     onerror := Some {| e_owner := i; captured_onError := onError o |};
     load_listeners := [] |}.

Definition add_load_listener (h : LoadHandler) (el : ScriptElement) : ScriptElement :=
  {| src := src el; el_async := el_async el; el_defer := el_defer el;
     data_loaded := data_loaded el; in_document := in_document el;
     onload := onload el; onerror := onerror el;
     load_listeners := load_listeners el ++ [h] |}.

Definition detach (el : ScriptElement) : ScriptElement :=
  {| src := src el; el_async := el_async el; el_defer := el_defer el;
     data_loaded := data_loaded el; in_document := false;
     onload := onload el; onerror := onerror el;
     load_listeners := load_listeners el |}.

(** The body of the effect of instance [i], rendered with options [o]
    (lines 45-100). The [cleanup] flag of the instance records whether
    the body returned the cleanup function. *)
Definition useJSAPILoader (i : nat) (o : JSAPILoaderOptions) (sys : System) : System :=
  match instances sys !! i with
  | None => sys
  | Some inst =>
    if loadedRef inst then with_instance i (set_cleanup false) sys
    else if skip_requested o (window sys) then
      with_client (opt_call (onLoad o))
        (with_instance i (fun inst => set_cleanup false (mark_loaded inst)) sys)
    else
      match querySelector (document (window sys)) with
      | Some (k, existingScript) =>
        if data_loaded existingScript then
          with_client (opt_call (onLoad o))
            (with_instance i (fun inst => set_cleanup false (mark_loaded inst)) sys)
        else
          with_element k
            (add_load_listener {| owner := i; captured_onLoad := onLoad o |})
            (with_instance i (set_cleanup false) sys)
      | None =>
        let k := length (document (window sys)) in
        with_document (fun doc => doc ++ [new_script i o])
          (with_instance i
             (fun inst => set_cleanup true (set_scriptRef k (setIsLoading true inst)))
             sys)
      end
  end.

(** The cleanup function returned by the effect (lines 96-100). *)
Definition effect_cleanup (i : nat) (sys : System) : System :=
  match instances sys !! i with
  | None => sys
  | Some inst =>
    match scriptRef inst with
    | None => sys
    | Some k =>
      match document (window sys) !! k with
      | Some el => if in_document el then with_element k detach sys else sys
      | None => sys
      end
    end
  end.

(** React runs the cleanup of the previous run of an effect, if that run
    returned one, before it runs the effect again and when the component
    unmounts. *)
Definition run_cleanup (i : nat) (sys : System) : System :=
  match instances sys !! i with
  | None => sys
  | Some inst =>
    if cleanup inst
    then with_instance i (set_cleanup false) (effect_cleanup i sys)
    else sys
  end.

(** Dispatch of a [load] event on element [k]: the [onload] property
    first (it was set when the element was created), then the listeners
    in the order they were added. *)
Definition dispatch_load (k : nat) (sys : System) : System :=
  match document (window sys) !! k with
  | None => sys
  | Some el =>
    let sys1 := match onload el with
                | Some h => own_onload k h sys
                | None => sys
                end in
    fold_left (fun s h => reuse_listener h s) (load_listeners el) sys1
  end.

Definition dispatch_error (k : nat) (err : Event) (sys : System) : System :=
  match document (window sys) !! k with
  | None => sys
  | Some el =>
    match onerror el with
    | Some h => own_onerror h err sys
    | None => sys
    end
  end.

(** What can happen to the page and its hook instances. *)
Inductive Step : Type :=
| Activate (i : nat) (o : JSAPILoaderOptions)
| Deactivate (i : nat)
| LoadEvent (k : nat)
| ErrorEvent (k : nat) (err : Event)
| SetContainer (g : option GpContainer).

Definition step (sys : System) (s : Step) : System :=
  match s with
  | Activate i o => useJSAPILoader i o (run_cleanup i sys)
  | Deactivate i => run_cleanup i sys
  | LoadEvent k => dispatch_load k sys
  | ErrorEvent k err => dispatch_error k err sys
  | SetContainer g =>
    {| window := {| gpContainer := g;
                    document := document (window sys);
                    console := console (window sys) |};
       instances := instances sys;
       client := client sys |}
  end.

Definition run (trace : list Step) (sys : System) : System :=
  fold_left step trace sys.

(** [n] freshly mounted hook instances on a page. *)
Definition mount (w : Window) (n : nat) (c : C) : System :=
  {| window := w; instances := replicate n fresh; client := c |}.

End Page.

Arguments LoadHandler : clear implicits.
Arguments ErrorHandler : clear implicits.
Arguments ScriptElement : clear implicits.
Arguments Window : clear implicits.
Arguments JSAPILoaderOptions : clear implicits.
Arguments System : clear implicits.
Arguments Step : clear implicits.

(** ** useMiniapp: the promise and the two call operations *)

(** An invocation of [resolve] or [reject] of the promise built by [call]. *)
Inductive Settlement : Type :=
| Resolve (value : GopaySuccessResponse)
| Reject (reason : GopayErrorResponse).

Inductive PromiseState : Type :=
| Pending
| Fulfilled (value : GopaySuccessResponse)
| Rejected (reason : GopayErrorResponse).

(** Only the first settlement of a promise has an effect. *)
Definition settle (p : PromiseState) (s : Settlement) : PromiseState :=
  match p with
  | Pending =>
    match s with
    | Resolve v => Fulfilled v
    | Reject e => Rejected e
    end
  | _ => p
  end.

Definition promise (settlements : list Settlement) : PromiseState :=
  fold_left settle settlements Pending.

(** An invocation of one of the two callbacks given to [callWithCallbacks]. *)
Inductive CallbackUse : Type :=
| SuccessCallback (response : GopaySuccessResponse)
| FailureCallback (error : GopayErrorResponse).

Definition SDK_NOT_LOADED : GopayErrorResponse :=
  {| error_code := "SDK_NOT_LOADED";
     error_type := "JS_BRIDGE_ERROR";
     error_message := "GoPay SDK is not loaded yet";
     ret := "GP_EXCEPTION" |}.

(** [err instanceof Error ? err.message : 'Unknown error occurred'] *)
Definition errorMessage (err : Thrown) : string :=
  match err with
  | ThrownError message => message
  | ThrownValue _ => "Unknown error occurred"
  end.

Definition CALL_EXCEPTION (err : Thrown) : GopayErrorResponse :=
  {| error_code := "CALL_EXCEPTION";
     error_type := "JS_BRIDGE_ERROR";
     error_message := errorMessage err;
     ret := "GP_EXCEPTION" |}.

(** The two callbacks [call] hands to the bridge (lines 178-189): the match
    on the variant is the test of [gopayResponse.success]. *)
Definition call_delivery (d : Delivery) : Settlement :=
  match d with
  | SuccessChannel response =>
    match response with
    | SuccessResponse r => Resolve r
    | ErrorResponse e => Reject e
    end
  | FailureChannel error => Reject error
  end.

(** The two callbacks [callWithCallbacks] hands to the bridge (lines 233-243). *)
Definition callbacks_delivery (d : Delivery) : CallbackUse :=
  match d with
  | SuccessChannel response =>
    match response with
    | SuccessResponse r => SuccessCallback r
    | ErrorResponse e => FailureCallback e
    end
  | FailureChannel error => FailureCallback error
  end.

(** What one [call] does: the invocations of the raw primitive, the
    settlements made before [call] returns, and those made afterwards. *)
Record CallResult : Type := {
  bridge_calls : list BridgeInvocation;
  sync_settlements : list Settlement;
  async_settlements : list Settlement
}.

Record CallbacksResult : Type := {
  cb_bridge_calls : list BridgeInvocation;
  sync_callbacks : list CallbackUse;
  async_callbacks : list CallbackUse
}.

Module Miniapp.

Record GopayMiniappOptions {U : Type} : Type := {
  onReady : option (U -> U);
  onError : option (Event -> U -> U);
  defaultTimeout : option Z
}.
Arguments GopayMiniappOptions : clear implicits.

(** [isReady] and [readyRef] of the hook, and the state the caller's
    [onReady] and [onError] act on. *)
Record State {U : Type} : Type := {
  isReady : bool;
  readyRef : bool;
  user : U
}.
Arguments State : clear implicits.

End Miniapp.

Import Miniapp (GopayMiniappOptions, onReady, defaultTimeout, isReady, readyRef, user).

Section Miniapp.

Context {U : Type}.

Definition timeout_of (o : GopayMiniappOptions U) : Z :=
  default 300000%Z (defaultTimeout o).

(** The [onLoad] that [useMiniapp] gives the loader (lines 139-145). *)
Definition miniapp_onLoad (o : GopayMiniappOptions U)
    (m : Miniapp.State U) : Miniapp.State U :=
  if negb (readyRef m) then
    {| Miniapp.isReady := true;
       Miniapp.readyRef := true;
       Miniapp.user := opt_call (onReady o) (user m) |}
  else m.

(** The [onError] that [useMiniapp] gives the loader (lines 146-148). *)
Definition miniapp_onError (o : GopayMiniappOptions U) (err : Event)
    (m : Miniapp.State U) : Miniapp.State U :=
  match Miniapp.onError o with
  | Some g =>
    {| Miniapp.isReady := isReady m;
       Miniapp.readyRef := readyRef m;
       Miniapp.user := g err (user m) |}
  | None => m
  end.

(** The options of the [useJSAPILoader] inside [useMiniapp] (lines 137-149). *)
Definition loader_options (o : GopayMiniappOptions U)
    : JSAPILoaderOptions (Miniapp.State U) :=
  {| onLoad := Some (miniapp_onLoad o);
     onError := Some (miniapp_onError o);
     skipIfExists := Some (fun w =>
       match gpContainer w with
       | Some _ => true
       | None => false
       end);
     async := None;
     defer := None |}.

(** [call] (lines 154-203), invoked on the page [w]. *)
Definition call {C : Type} (o : GopayMiniappOptions U) (w : Window C)
    (className methodName : string)
    (params : option (gmap string JSValue)) (timeout : option Z) : CallResult :=
  let params := default ∅ params in
  let timeout := default (timeout_of o) timeout in
  match gpContainer w with
  | None =>
    {| bridge_calls := [];
       sync_settlements := [Reject SDK_NOT_LOADED];
       async_settlements := [] |}
  | Some gp =>
    let r := gp_call gp className methodName params timeout in
    {| bridge_calls :=
         [{| className := className; methodName := methodName;
             params := params; timeout := timeout |}];
       sync_settlements :=
         map call_delivery (during r) ++
         match thrown r with
         | Some err => [Reject (CALL_EXCEPTION err)]
         | None => []
         end;
       async_settlements := map call_delivery (later r) |}
  end.

(** [callWithCallbacks] (lines 208-256). *)
Definition callWithCallbacks {C : Type} (o : GopayMiniappOptions U) (w : Window C)
    (className methodName : string)
    (params : option (gmap string JSValue)) (timeout : option Z) : CallbacksResult :=
  let params := default ∅ params in
  let timeout := default (timeout_of o) timeout in
  match gpContainer w with
  | None =>
    {| cb_bridge_calls := [];
       sync_callbacks := [FailureCallback SDK_NOT_LOADED];
       async_callbacks := [] |}
  | Some gp =>
    let r := gp_call gp className methodName params timeout in
    {| cb_bridge_calls :=
         [{| className := className; methodName := methodName;
             params := params; timeout := timeout |}];
       sync_callbacks :=
         map callbacks_delivery (during r) ++
         match thrown r with
         | Some err => [FailureCallback (CALL_EXCEPTION err)]
         | None => []
         end;
       async_callbacks := map callbacks_delivery (later r) |}
  end.

(** The state of the promise when [call] returns, and once the bridge has
    made all its deliveries. *)
Definition promise_on_return (r : CallResult) : PromiseState :=
  promise (sync_settlements r).

Definition promise_finally (r : CallResult) : PromiseState :=
  promise (sync_settlements r ++ async_settlements r).

(** *** The helper wrappers (lines 261-373) *)

Definition getAuthCode {C : Type} (o : GopayMiniappOptions U) (w : Window C)
    (params : option (gmap string JSValue)) : CallResult :=
  call o w "GPMiniAppAuth" "getAuthCode" (Some (default ∅ params)) None.

Definition launchDeeplink {C : Type} (o : GopayMiniappOptions U) (w : Window C)
    (deeplink : string) : CallResult :=
  call o w "GPNavigator" "launchDeeplink"
    (Some {[ "deeplink" := JString deeplink ]}) None.

Definition launchUri {C : Type} (o : GopayMiniappOptions U) (w : Window C)
    (uri : string) : CallResult :=
  call o w "GPNavigator" "launchUri" (Some {[ "uri" := JString uri ]}) None.

Definition launchPayment {C : Type} (o : GopayMiniappOptions U) (w : Window C)
    (deeplink : string) : CallResult :=
  call o w "GP" "launchPayment" (Some {[ "deeplink" := JString deeplink ]}) None.

Definition getLocation {C : Type} (o : GopayMiniappOptions U) (w : Window C)
    (params : option (gmap string JSValue)) : CallResult :=
  call o w "GPLocation" "getLocation" (Some (default ∅ params)) None.

Definition getSystemInfo {C : Type} (o : GopayMiniappOptions U) (w : Window C)
    (params : option (gmap string JSValue)) : CallResult :=
  call o w "GPSystem" "getSystemInfo" (Some (default ∅ params)) None.

Definition getUserConsent {C : Type} (o : GopayMiniappOptions U) (w : Window C)
    (consentName : string) : CallResult :=
  call o w "GPConsent" "getUserConsent"
    (Some {[ "consent_name" := JString consentName ]}) None.

Definition getLocale {C : Type} (o : GopayMiniappOptions U) (w : Window C)
    (params : option (gmap string JSValue)) : CallResult :=
  call o w "GPSystem" "getLocale" (Some (default ∅ params)) None.

Definition getWifiInfo {C : Type} (o : GopayMiniappOptions U) (w : Window C)
    (params : option (gmap string JSValue)) : CallResult :=
  call o w "GPSystem" "getWifiInfo" (Some (default ∅ params)) None.

Definition getRootedDeviceInfo {C : Type} (o : GopayMiniappOptions U) (w : Window C)
    (params : option (gmap string JSValue)) : CallResult :=
  call o w "GPSystem" "getRootedDeviceInfo" (Some (default ∅ params)) None.

Definition getBankAccountToken {C : Type} (o : GopayMiniappOptions U) (w : Window C)
    (params : option (gmap string JSValue)) : CallResult :=
  call o w "GPBank" "getBankAccountToken" (Some (default ∅ params)) None.

Definition startAccelerometer {C : Type} (o : GopayMiniappOptions U) (w : Window C)
    (params : option (gmap string JSValue)) : CallResult :=
  call o w "GPSensor" "startAccelerometer" (Some (default ∅ params)) None.

Definition stopAccelerometer {C : Type} (o : GopayMiniappOptions U) (w : Window C)
    (params : option (gmap string JSValue)) : CallResult :=
  call o w "GPSensor" "stopAccelerometer" (Some (default ∅ params)) None.

Definition startCompass {C : Type} (o : GopayMiniappOptions U) (w : Window C)
    (params : option (gmap string JSValue)) : CallResult :=
  call o w "GPSensor" "startCompass" (Some (default ∅ params)) None.

Definition stopCompass {C : Type} (o : GopayMiniappOptions U) (w : Window C)
    (params : option (gmap string JSValue)) : CallResult :=
  call o w "GPSensor" "stopCompass" (Some (default ∅ params)) None.

Definition vibrate {C : Type} (o : GopayMiniappOptions U) (w : Window C)
    (params : option (gmap string JSValue)) : CallResult :=
  call o w "GPDevice" "vibrate" (Some (default ∅ params)) None.

(** The members of the [helpers] object (lines 261-373), by their key: the
    four that take a string and the twelve that take an optional params
    object. *)
Inductive StringHelper : Type :=
| LaunchDeeplink | LaunchUri | LaunchPayment | GetUserConsent.

Inductive ParamsHelper : Type :=
| GetAuthCode | GetLocation | GetSystemInfo | GetWifiInfo | GetRootedDeviceInfo
| GetBankAccountToken | StartAccelerometer | StopAccelerometer
| StartCompass | StopCompass | Vibrate | GetLocale.

Definition string_helper_key (h : StringHelper) : string :=
  match h with
  | LaunchDeeplink => "launchDeeplink"
  | LaunchUri => "launchUri"
  | LaunchPayment => "launchPayment"
  | GetUserConsent => "getUserConsent"
  end.

Definition params_helper_key (h : ParamsHelper) : string :=
  match h with
  | GetAuthCode => "getAuthCode"
  | GetLocation => "getLocation"
  | GetSystemInfo => "getSystemInfo"
  | GetWifiInfo => "getWifiInfo"
  | GetRootedDeviceInfo => "getRootedDeviceInfo"
  | GetBankAccountToken => "getBankAccountToken"
  | StartAccelerometer => "startAccelerometer"
  | StopAccelerometer => "stopAccelerometer"
  | StartCompass => "startCompass"
  | StopCompass => "stopCompass"
  | Vibrate => "vibrate"
  | GetLocale => "getLocale"
  end.

(** [helpers[key](arg)] *)
Definition string_helper {C : Type} (h : StringHelper) (o : GopayMiniappOptions U)
    (w : Window C) (arg : string) : CallResult :=
  match h with
  | LaunchDeeplink => launchDeeplink o w arg
  | LaunchUri => launchUri o w arg
  | LaunchPayment => launchPayment o w arg
  | GetUserConsent => getUserConsent o w arg
  end.

Definition params_helper {C : Type} (h : ParamsHelper) (o : GopayMiniappOptions U)
    (w : Window C) (arg : option (gmap string JSValue)) : CallResult :=
  match h with
  | GetAuthCode => getAuthCode o w arg
  | GetLocation => getLocation o w arg
  | GetSystemInfo => getSystemInfo o w arg
  | GetWifiInfo => getWifiInfo o w arg
  | GetRootedDeviceInfo => getRootedDeviceInfo o w arg
  | GetBankAccountToken => getBankAccountToken o w arg
  | StartAccelerometer => startAccelerometer o w arg
  | StopAccelerometer => stopAccelerometer o w arg
  | StartCompass => startCompass o w arg
  | StopCompass => stopCompass o w arg
  | Vibrate => vibrate o w arg
  | GetLocale => getLocale o w arg
  end.

(** What [useMiniapp] returns besides its functions (lines 375-378):
    [isReady] of the hook, [isLoading] and [error] of its loader. *)
Record GoPayMiniappResult : Type := {
  res_isReady : bool;
  res_isLoading : bool;
  res_error : option string
}.

Definition miniapp_result (sys : System (Miniapp.State U)) : option GoPayMiniappResult :=
  match instances sys !! 0 with
  | Some inst =>
    Some {| res_isReady := isReady (client sys);
            res_isLoading := isLoading inst;
            res_error := error inst |}
  | None => None
  end.

End Miniapp.

(** ** Vocabulary of the properties *)

(** The bridge hands the adapter the error envelope [e]: through the failure
    callback, or through the success callback with [success] false. *)
Inductive delivers_error (e : GopayErrorResponse) : Delivery -> Prop :=
| through_failure : delivers_error e (FailureChannel e)
| through_success response :
    success response = false ->
    response = ErrorResponse e ->
    delivers_error e (SuccessChannel response).

(** The bridge hands the adapter, through the success callback, an envelope
    whose [success] is true. *)
Inductive delivers_success (r : GopaySuccessResponse) : Delivery -> Prop :=
| success_true response :
    success response = true ->
    response = SuccessResponse r ->
    delivers_success r (SuccessChannel response).

(** A bridge whose [call] primitive always behaves as [r]. *)
Definition constant_bridge (r : BridgeRun) : GpContainer :=
  {| gp_call := fun _ _ _ _ => r |}.

(** A page with no script and the given bridge. *)
Definition blank_page {C : Type} (g : option GpContainer) : Window C :=
  {| gpContainer := g; document := []; console := [] |}.

Definition no_options : GopayMiniappOptions unit :=
  {| Miniapp.onReady := None; Miniapp.onError := None; Miniapp.defaultTimeout := None |}.

(** The behaviour of the bridge on the arguments [call] passes to it. *)
Definition bridge_run {U : Type} (o : GopayMiniappOptions U) (cls meth : string)
    (ps : option (gmap string JSValue)) (t : option Z) (gp : GpContainer) : BridgeRun :=
  gp_call gp cls meth (default ∅ ps) (default (timeout_of o) t).

(** *** The hook [useMiniapp] on a page *)

(** The caller's callbacks as spies: each invocation is recorded. *)
Inductive UserCall : Type :=
| OnReadyCalled
| OnErrorCalled (err : Event).

#[global] Instance UserCall_eq_dec : EqDecision UserCall.
Proof. solve_decision. Defined.

Definition spy_options (t : option Z) : GopayMiniappOptions (list UserCall) :=
  {| Miniapp.onReady := Some (fun calls => calls ++ [OnReadyCalled]);
     Miniapp.onError := Some (fun err calls => calls ++ [OnErrorCalled err]);
     Miniapp.defaultTimeout := t |}.

Definition onReady_calls (calls : list UserCall) : nat :=
  length (filter (fun c => c = OnReadyCalled) calls).

(** The state of the hook when the component mounts. *)
Definition not_ready {U : Type} (u : U) : Miniapp.State U :=
  {| Miniapp.isReady := false; Miniapp.readyRef := false; Miniapp.user := u |}.

(** A component that calls [useMiniapp], when it mounts on page [w] (lines
    134-137): [isReady] and [readyRef] are false and the hook holds one
    loader instance, number 0, in its initial state. *)
Definition useMiniapp {U : Type} (w : Window (Miniapp.State U)) (u : U)
    : System (Miniapp.State U) :=
  mount w 1 (not_ready u).

(** A script element that no hook instance created or listens to. *)
Definition foreign {C : Type} (el : ScriptElement C) : Prop :=
  onload el = None /\ onerror el = None /\ load_listeners el = [].

(** The steps of a page whose only hook is [useMiniapp] with options [o]:
    the effect of its loader runs with the options of lines 137-149. *)
Definition miniapp_step {U : Type} (o : GopayMiniappOptions U)
    (s : Step (Miniapp.State U)) : Prop :=
  match s with
  | Activate i o' => o' = loader_options o
  | _ => True
  end.

(** *** What an activation does on its way (lines 45-55) *)

(** The value [skipIfExists()] returns in the activation of instance [i]
    with options [o]; [None] when the predicate is not supplied or not
    called (the guard of line 45 has returned). *)
Definition skipIfExists_returns {C : Type} (i : nat) (o : JSAPILoaderOptions C)
    (sys : System C) : option bool :=
  match instances sys !! i with
  | None => None
  | Some inst =>
    if loadedRef inst then None
    else match skipIfExists o with
         | Some p => Some (p (window sys))
         | None => None
         end
  end.

(** The script element the activation finds with [querySelector] (line 54);
    [None] when it finds none or does not get that far. *)
Definition finds {C : Type} (i : nat) (o : JSAPILoaderOptions C)
    (sys : System C) : option (nat * ScriptElement C) :=
  match instances sys !! i with
  | None => None
  | Some inst =>
    if loadedRef inst then None
    else if skip_requested o (window sys) then None
    else querySelector (document (window sys))
  end.

(** *** The history of a loader instance *)

(** What never goes back in the state of one instance: [isLoaded] and
    [loadedRef] are never reset, and [error] only ever changes to the
    load-failure message. *)
Definition evolves (inst inst' : Instance) : Prop :=
  (isLoaded inst = true -> isLoaded inst' = true) /\
  (loadedRef inst = true -> loadedRef inst' = true) /\
  (error inst' = error inst \/ error inst' = Some errorMsg).

Definition history {C : Type} (sys sys' : System C) : Prop :=
  Forall2 evolves (instances sys) (instances sys').

(** The state in which the error handler leaves an instance that was
    loading. *)
Definition errored (inst : Instance) : Prop :=
  error inst = Some errorMsg /\ isLoading inst = false /\ isLoaded inst = false.

(** A state of instance [i] is terminal when nothing that happens next
    changes its loading status or the script it holds. *)
Definition terminal {C : Type} (i : nat) (sys : System C) : Prop :=
  forall (s : Step C) inst inst',
    instances sys !! i = Some inst ->
    instances (step sys s) !! i = Some inst' ->
    isLoading inst' = isLoading inst /\
    isLoaded inst' = isLoaded inst /\
    scriptRef inst' = scriptRef inst.

(** Loader options with no callback and no predicate, and with spies. *)
Definition plain_options {C : Type} : JSAPILoaderOptions C :=
  {| onLoad := None; onError := None; skipIfExists := None;
     async := None; defer := None |}.

(** [onLoad] adds 1 to a counter and [onError] adds 10. *)
Definition counting_options (skip : option (Window nat -> bool)) : JSAPILoaderOptions nat :=
  {| onLoad := Some S; onError := Some (fun _ n => 10 + n); skipIfExists := skip;
     async := None; defer := None |}.

(** Envelopes and bridges of the test suite. *)
Definition errorResponse : GopayErrorResponse :=
  {| error_code := "TEST_ERROR"; error_type := "JS_BRIDGE_ERROR";
     error_message := "Test error message"; ret := "GP_EXCEPTION" |}.

Definition successResponse : GopaySuccessResponse :=
  {| s_ret := "GP_SUCCESS"; data := Some (JObject [Field "id" (JNumber 123)]) |}.

Definition answering (d : Delivery) : GpContainer :=
  constant_bridge {| during := [d]; thrown := None; later := [] |}.

Definition throwing (err : Thrown) : GpContainer :=
  constant_bridge {| during := []; thrown := Some err; later := [] |}.

Definition silent : GpContainer :=
  constant_bridge {| during := []; thrown := None; later := [] |}.

(** A script element for the SDK URL put in the page by someone else, not
    yet marked as loaded. *)
Definition sdk_script_tag {C : Type} : ScriptElement C :=
  {| src := GOPAY_SDK_URL; el_async := true; el_defer := false;
     data_loaded := false; in_document := true;
     onload := None; onerror := None; load_listeners := [] |}.

Definition page_with_sdk_script {C : Type} : Window C :=
  {| gpContainer := None; document := [sdk_script_tag]; console := [] |}.

(** *** The invariant of a page whose only hook is [useMiniapp] *)

(** The latch agrees with the flag, and the spy has seen [onReady] once if
    the hook is ready and never otherwise. *)
Definition client_ok (m : Miniapp.State (list UserCall)) : Prop :=
  readyRef m = isReady m /\
  onReady_calls (user m) = (if isReady m then 1 else 0).

(** Every handler on a script element belongs to instance 0 and holds the
    callbacks of lines 139-148. *)
Definition handler_ok (o : GopayMiniappOptions (list UserCall))
    (h : LoadHandler (Miniapp.State (list UserCall))) : Prop :=
  owner h = 0 /\ captured_onLoad h = Some (miniapp_onLoad o).

Definition element_ok (o : GopayMiniappOptions (list UserCall))
    (el : ScriptElement (Miniapp.State (list UserCall))) : Prop :=
  (forall h, onload el = Some h -> handler_ok o h) /\
  Forall (handler_ok o) (load_listeners el) /\
  (forall h, onerror el = Some h ->
     e_owner h = 0 /\ captured_onError h = Some (miniapp_onError o)).

Definition loaded0 {C : Type} (sys : System C) : Prop :=
  exists inst, instances sys !! 0 = Some inst /\
    isLoaded inst = true /\ loadedRef inst = true.

Definition ready_inv (o : GopayMiniappOptions (list UserCall))
    (sys : System (Miniapp.State (list UserCall))) : Prop :=
  length (instances sys) = 1 /\
  client_ok (client sys) /\
  (isReady (client sys) = true -> loaded0 sys) /\
  Forall (element_ok o) (document (window sys)).

(** From [sys] to [sys']: the invariant holds again and the flag was not
    reset. *)
Definition advance (o : GopayMiniappOptions (list UserCall))
    (sys sys' : System (Miniapp.State (list UserCall))) : Prop :=
  ready_inv o sys' /\
  (isReady (client sys) = true -> isReady (client sys') = true).

(** *** Vocabulary of the further properties *)

(** The callback of [callWithCallbacks] that stands for a settlement of the
    promise of [call]. *)
Definition as_callback (s : Settlement) : CallbackUse :=
  match s with
  | Resolve r => SuccessCallback r
  | Reject e => FailureCallback e
  end.

(** The class each helper is expected to address, and the key under which a
    string helper is expected to pass its argument (the table
    [helperTestCases] of the test suite and the assertions below it). *)
Definition string_helper_class (h : StringHelper) : string :=
  match h with
  | LaunchDeeplink => "GPNavigator"
  | LaunchUri => "GPNavigator"
  | LaunchPayment => "GP"
  | GetUserConsent => "GPConsent"
  end.

Definition string_helper_param (h : StringHelper) : string :=
  match h with
  | GetUserConsent => "consent_name"
  | LaunchDeeplink | LaunchPayment => "deeplink"
  | LaunchUri => "uri"
  end.

Definition params_helper_class (h : ParamsHelper) : string :=
  match h with
  | GetAuthCode => "GPMiniAppAuth"
  | GetLocation => "GPLocation"
  | GetSystemInfo | GetWifiInfo | GetRootedDeviceInfo | GetLocale => "GPSystem"
  | GetBankAccountToken => "GPBank"
  | StartAccelerometer | StopAccelerometer | StartCompass | StopCompass => "GPSensor"
  | Vibrate => "GPDevice"
  end.

(** [script.setAttribute('data-loaded', 'true')] *)
Definition set_data_loaded {C : Type} (el : ScriptElement C) : ScriptElement C :=
  {| src := src el; el_async := el_async el; el_defer := el_defer el;
     data_loaded := true; in_document := in_document el;
     onload := onload el; onerror := onerror el;
     load_listeners := load_listeners el |}.

(** The callbacks the listeners of an element invoke, in order. *)
Definition listeners_callbacks {C : Type} (hs : list (LoadHandler C)) (c : C) : C :=
  fold_left (fun c h => opt_call (captured_onLoad h) c) hs c.

(** Two states of an instance that differ at most by [cleanup]. *)
Definition same_hook_state (inst inst' : Instance) : Prop :=
  isLoaded inst' = isLoaded inst /\ isLoading inst' = isLoading inst /\
  error inst' = error inst /\ scriptRef inst' = scriptRef inst /\
  loadedRef inst' = loadedRef inst.

(** What holds of every instance of a page that started as [w] with freshly
    mounted instances: the state [isLoaded] agrees with the latch
    [loadedRef]; [error] is null or the load-failure message; an instance
    that is loading has created a script; and [scriptRef] refers to an
    element that exists and was appended after the page started. *)
Definition instance_ok {C : Type} (w : Window C) (doc : list (ScriptElement C))
    (inst : Instance) : Prop :=
  isLoaded inst = loadedRef inst /\
  (error inst = None \/ error inst = Some errorMsg) /\
  (isLoading inst = true -> is_Some (scriptRef inst)) /\
  (forall k, scriptRef inst = Some k -> length (document w) <= k < length doc).

(** The elements of the page [w] are still there, attached or not as they
    were and with the same [src]. *)
Definition page_kept {C : Type} (w : Window C) (doc : list (ScriptElement C)) : Prop :=
  forall k el, document w !! k = Some el ->
    exists el', doc !! k = Some el' /\
      in_document el' = in_document el /\ src el' = src el.

Definition loader_inv {C : Type} (w : Window C) (sys : System C) : Prop :=
  Forall (instance_ok w (document (window sys))) (instances sys) /\
  page_kept w (document (window sys)).

(** *** When the hook becomes ready *)

(** The hook is ready as soon as its loader is loaded. *)
Definition ready_when_loaded {U : Type} (sys : System (Miniapp.State U)) : Prop :=
  forall inst, instances sys !! 0 = Some inst ->
    isLoaded inst = true \/ loadedRef inst = true ->
    isReady (client sys) = true.

(** *** Renders of a component that uses [useMiniapp] *)

(** The values of the [useState] cells of the hook: [isReady], and
    [isLoaded], [isLoading] and [error] of its loader. React renders the
    component again when one of them has changed. *)
Definition hook_view {U : Type} (sys : System (Miniapp.State U))
    : bool * option (bool * bool * option string) :=
  (isReady (client sys),
   (fun inst => (isLoaded inst, isLoading inst, error inst)) <$> instances sys !! 0).

(** A render of the component and what follows. [useMiniapp] builds the
    loader's [skipIfExists], [onLoad] and [onError] anew at every render
    (lines 137-149), so the dependencies of the effect (line 101) have
    changed and the effect runs again, its cleanup first; when that run has
    changed the state, the component renders once more. [fuel] bounds the
    number of renders. *)
Fixpoint rerender {U : Type} (fuel : nat) (o : GopayMiniappOptions U)
    (sys : System (Miniapp.State U)) : System (Miniapp.State U) :=
  match fuel with
  | 0 => sys
  | S fuel' =>
    let sys' := step sys (Activate 0 (loader_options o)) in
    if decide (hook_view sys' = hook_view sys) then sys'
    else rerender fuel' o sys'
  end.

(** An event on the page of the component, and the renders it causes. *)
Definition react {U : Type} (fuel : nat) (o : GopayMiniappOptions U)
    (s : Step (Miniapp.State U)) (sys : System (Miniapp.State U))
    : System (Miniapp.State U) :=
  let sys' := step sys s in
  if decide (hook_view sys' = hook_view sys) then sys'
  else rerender fuel o sys'.

(** A page without the bridge whose document is [front ++ tail], with one
    loader instance. *)
Definition page {C : Type} (front tail : list (ScriptElement C))
    (cs : list (string * Event)) (inst : Instance) (c : C) : System C :=
  {| window := {| gpContainer := None; document := front ++ tail; console := cs |};
     instances := [inst]; client := c |}.

(** *** [callWithCallbacks] with the caller's callbacks *)

(** The synchronous part of one invocation of the raw primitive when the
    callbacks it is handed may throw: the bridge returns, or throws, or
    invokes one of the callbacks and goes on according to whether that
    callback returned ([None]) or threw. *)
Inductive BridgeSync : Type :=
| SyncReturn
| SyncThrow (err : Thrown)
| SyncDeliver (d : Delivery) (next : option Thrown -> BridgeSync).

Record InteractiveRun : Type := {
  sync_part : BridgeSync;
  later_part : list Delivery
}.

Record InteractiveContainer : Type := {
  igp_call : string -> string -> gmap string JSValue -> Z -> InteractiveRun
}.

(** The deliveries the bridge makes before it returns or throws, and the
    value it throws, when each callback behaves as [cb]. *)
Fixpoint run_sync (cb : Delivery -> option Thrown) (b : BridgeSync)
    : list Delivery * option Thrown :=
  match b with
  | SyncReturn => ([], None)
  | SyncThrow err => ([], Some err)
  | SyncDeliver d next =>
    let rest := run_sync cb (next (cb d)) in
    (d :: fst rest, snd rest)
  end.

(** The bridge as it behaves towards callbacks that never throw, such as
    [resolve] and [reject] of the promise of [call]. *)
Definition passive (gp : InteractiveContainer) : GpContainer :=
  {| gp_call := fun className methodName params timeout =>
       let r := igp_call gp className methodName params timeout in
       {| during := fst (run_sync (fun _ => None) (sync_part r));
          thrown := snd (run_sync (fun _ => None) (sync_part r));
          later := later_part r |} |}.

(** What one [callWithCallbacks] does: besides the invocations of the
    primitive and of the callbacks, the exception that leaves the function,
    if one does. *)
Record CallbacksTrace : Type := {
  t_bridge_calls : list BridgeInvocation;
  t_sync_callbacks : list CallbackUse;
  t_async_callbacks : list CallbackUse;
  t_escapes : option Thrown
}.

(** The invocation of one of the caller's two callbacks: [None] when it
    returns, the thrown value when it throws. *)
Definition use_callback (successCallback : GopaySuccessResponse -> option Thrown)
    (failureCallback : GopayErrorResponse -> option Thrown)
    (u : CallbackUse) : option Thrown :=
  match u with
  | SuccessCallback response => successCallback response
  | FailureCallback error => failureCallback error
  end.

(** [callWithCallbacks] (lines 208-256) with its two callbacks. Outside the
    [try] (line 224) and in the [catch] (line 248) an exception of
    [failureCallback] leaves the function; inside the [try] the callbacks
    are invoked by the bridge, and what the bridge lets through is caught
    at line 246. *)
Definition callWithCallbacks_with {U : Type} (o : GopayMiniappOptions U)
    (gpContainer : option InteractiveContainer)
    (className methodName : string)
    (params : option (gmap string JSValue))
    (successCallback : GopaySuccessResponse -> option Thrown)
    (failureCallback : GopayErrorResponse -> option Thrown)
    (timeout : option Z) : CallbacksTrace :=
  let params := default ∅ params in
  let timeout := default (timeout_of o) timeout in
  match gpContainer with
  | None =>
    {| t_bridge_calls := [];
       t_sync_callbacks := [FailureCallback SDK_NOT_LOADED];
       t_async_callbacks := [];
       t_escapes := failureCallback SDK_NOT_LOADED |}
  | Some gp =>
    let r := igp_call gp className methodName params timeout in
    let inside :=
      run_sync (fun d => use_callback successCallback failureCallback (callbacks_delivery d))
               (sync_part r) in
    {| t_bridge_calls :=
         [{| className := className; methodName := methodName;
             params := params; timeout := timeout |}];
       t_sync_callbacks :=
         map callbacks_delivery (fst inside) ++
         match snd inside with
         | Some err => [FailureCallback (CALL_EXCEPTION err)]
         | None => []
         end;
       t_async_callbacks := map callbacks_delivery (later_part r);
       t_escapes :=
         match snd inside with
         | Some err => failureCallback (CALL_EXCEPTION err)
         | None => None
         end |}
  end.

(** A bridge that delivers [d] and lets an exception of the callback
    through, as the mocks of the test suite do. *)
Definition delivering (d : Delivery) : InteractiveContainer :=
  {| igp_call := fun _ _ _ _ =>
       {| sync_part := SyncDeliver d (fun threw =>
                         match threw with
                         | Some err => SyncThrow err
                         | None => SyncReturn
                         end);
          later_part := [] |} |}.

(** ** The call adapter *)

Lemma promise_settled (p : PromiseState) (l : list Settlement) :
  p <> Pending -> fold_left settle l p = p.
Proof.
  revert p. induction l as [|s l IH]; intros p Hp; simpl; [reflexivity|].
  destruct p; [congruence| |]; simpl; apply IH; discriminate.
Qed.

Lemma promise_cons_reject (e : GopayErrorResponse) (l : list Settlement) :
  promise (Reject e :: l) = Rejected e.
Proof. unfold promise. simpl. apply promise_settled. discriminate. Qed.

Lemma promise_cons_resolve (r : GopaySuccessResponse) (l : list Settlement) :
  promise (Resolve r :: l) = Fulfilled r.
Proof. unfold promise. simpl. apply promise_settled. discriminate. Qed.

Lemma call_delivery_error (e : GopayErrorResponse) (d : Delivery) :
  delivers_error e d ->
  call_delivery d = Reject e /\ callbacks_delivery d = FailureCallback e.
Proof. intros [|response _ ->]; split; reflexivity. Qed.

Lemma call_delivery_success (r : GopaySuccessResponse) (d : Delivery) :
  delivers_success r d ->
  call_delivery d = Resolve r /\ callbacks_delivery d = SuccessCallback r.
Proof. intros [response _ ->]; split; reflexivity. Qed.

Section CallAdapter.

Context {U C : Type}.
Variable o : GopayMiniappOptions U.
Variable w : Window C.
Variables cls meth : string.
Variable ps : option (gmap string JSValue).
Variable t : option Z.

(** C1: while [window.gpContainer] is absent, [call] rejects at once, and
    [callWithCallbacks] invokes its failure callback at once, with exactly
    the SDK_NOT_LOADED envelope; the promise is rejected when [call]
    returns and stays so; the primitive of the bridge is not invoked. *)
Theorem not_loaded_guard :
  gpContainer w = None ->
  let envelope :=
    {| error_code := "SDK_NOT_LOADED";
       error_type := "JS_BRIDGE_ERROR";
       error_message := "GoPay SDK is not loaded yet";
       ret := "GP_EXCEPTION" |} in
  let r := call o w cls meth ps t in
  let rc := callWithCallbacks o w cls meth ps t in
  bridge_calls r = [] /\
  sync_settlements r = [Reject envelope] /\
  async_settlements r = [] /\
  promise_on_return r = Rejected envelope /\
  promise_finally r = Rejected envelope /\
  cb_bridge_calls rc = [] /\
  sync_callbacks rc = [FailureCallback envelope] /\
  async_callbacks rc = [].
Proof.
  intros Habsent. unfold call, callWithCallbacks, promise_on_return, promise_finally.
  rewrite Habsent. simpl. repeat split; reflexivity.
Qed.

(** C2: every error envelope the bridge delivers, through either channel,
    reaches [reject] (resp. the failure callback) unchanged and at the same
    position among the outcomes; it is never passed to [resolve] or to the
    success callback; and when it is the first thing the bridge does, the
    promise is rejected with it. *)
Theorem error_envelope_verbatim (gp : GpContainer) (d : Delivery)
    (e : GopayErrorResponse) :
  gpContainer w = Some gp ->
  delivers_error e d ->
  let b := bridge_run o cls meth ps t gp in
  let r := call o w cls meth ps t in
  let rc := callWithCallbacks o w cls meth ps t in
  (forall n, during b !! n = Some d ->
     sync_settlements r !! n = Some (Reject e) /\
     sync_callbacks rc !! n = Some (FailureCallback e)) /\
  (forall n, later b !! n = Some d ->
     async_settlements r !! n = Some (Reject e) /\
     async_callbacks rc !! n = Some (FailureCallback e)) /\
  (forall v, call_delivery d <> Resolve v /\ callbacks_delivery d <> SuccessCallback v) /\
  (forall rest, during b = d :: rest ->
     promise_on_return r = Rejected e /\ promise_finally r = Rejected e) /\
  (forall rest, during b = [] -> thrown b = None -> later b = d :: rest ->
     promise_on_return r = Pending /\ promise_finally r = Rejected e).
Proof.
  intros Hgp Hd b r rc.
  destruct (call_delivery_error e d Hd) as [Hc Hcb].
  subst r rc. unfold call, callWithCallbacks, promise_on_return, promise_finally.
  rewrite Hgp. fold (bridge_run o cls meth ps t gp). fold b. simpl.
  split; [|split; [|split; [|split]]].
  - intros n Hn. split.
    + apply lookup_app_l_Some. rewrite list_lookup_fmap, Hn. simpl. by rewrite Hc.
    + apply lookup_app_l_Some. rewrite list_lookup_fmap, Hn. simpl. by rewrite Hcb.
  - intros n Hn. split.
    + rewrite list_lookup_fmap, Hn. simpl. by rewrite Hc.
    + rewrite list_lookup_fmap, Hn. simpl. by rewrite Hcb.
  - intros v. rewrite Hc, Hcb. split; discriminate.
  - intros rest Hb. rewrite Hb. simpl. rewrite Hc.
    split; apply promise_cons_reject.
  - intros rest Hb Hth Hl. rewrite Hb, Hth, Hl. simpl. rewrite Hc.
    split; [reflexivity | apply promise_cons_reject].
Qed.

(** C3: every envelope with [success] true that the bridge delivers on the
    success channel reaches [resolve] (resp. the success callback)
    unchanged, [data] included; when it is the first thing the bridge
    does, the promise is fulfilled with it. *)
Theorem success_envelope_verbatim (gp : GpContainer) (d : Delivery)
    (s : GopaySuccessResponse) :
  gpContainer w = Some gp ->
  delivers_success s d ->
  let b := bridge_run o cls meth ps t gp in
  let r := call o w cls meth ps t in
  let rc := callWithCallbacks o w cls meth ps t in
  (forall n, during b !! n = Some d ->
     sync_settlements r !! n = Some (Resolve s) /\
     sync_callbacks rc !! n = Some (SuccessCallback s)) /\
  (forall n, later b !! n = Some d ->
     async_settlements r !! n = Some (Resolve s) /\
     async_callbacks rc !! n = Some (SuccessCallback s)) /\
  (forall rest, during b = d :: rest ->
     promise_on_return r = Fulfilled s /\ promise_finally r = Fulfilled s) /\
  (forall rest, during b = [] -> thrown b = None -> later b = d :: rest ->
     promise_on_return r = Pending /\ promise_finally r = Fulfilled s).
Proof.
  intros Hgp Hd b r rc.
  destruct (call_delivery_success s d Hd) as [Hc Hcb].
  subst r rc. unfold call, callWithCallbacks, promise_on_return, promise_finally.
  rewrite Hgp. fold (bridge_run o cls meth ps t gp). fold b. simpl.
  split; [|split; [|split]].
  - intros n Hn. split.
    + apply lookup_app_l_Some. rewrite list_lookup_fmap, Hn. simpl. by rewrite Hc.
    + apply lookup_app_l_Some. rewrite list_lookup_fmap, Hn. simpl. by rewrite Hcb.
  - intros n Hn. split.
    + rewrite list_lookup_fmap, Hn. simpl. by rewrite Hc.
    + rewrite list_lookup_fmap, Hn. simpl. by rewrite Hcb.
  - intros rest Hb. rewrite Hb. simpl. rewrite Hc.
    split; apply promise_cons_resolve.
  - intros rest Hb Hth Hl. rewrite Hb, Hth, Hl. simpl. rewrite Hc.
    split; [reflexivity | apply promise_cons_resolve].
Qed.

(** C4: when the raw primitive throws, the last thing [call] does before
    it returns is to reject, and the last thing [callWithCallbacks] does
    is to invoke the failure callback, with the CALL_EXCEPTION envelope;
    its message is the message of the thrown [Error], and "Unknown error
    occurred" for any other thrown value; when the bridge invoked no
    callback before it threw, the promise is rejected with that envelope. *)
Theorem call_exception_envelope (gp : GpContainer) (err : Thrown) :
  gpContainer w = Some gp ->
  thrown (bridge_run o cls meth ps t gp) = Some err ->
  let message :=
    match err with
    | ThrownError m => m
    | ThrownValue _ => "Unknown error occurred"
    end in
  let envelope :=
    {| error_code := "CALL_EXCEPTION";
       error_type := "JS_BRIDGE_ERROR";
       error_message := message;
       ret := "GP_EXCEPTION" |} in
  let r := call o w cls meth ps t in
  let rc := callWithCallbacks o w cls meth ps t in
  last (sync_settlements r) = Some (Reject envelope) /\
  last (sync_callbacks rc) = Some (FailureCallback envelope) /\
  (during (bridge_run o cls meth ps t gp) = [] ->
     sync_settlements r = [Reject envelope] /\
     sync_callbacks rc = [FailureCallback envelope] /\
     promise_on_return r = Rejected envelope /\
     promise_finally r = Rejected envelope).
Proof.
  intros Hgp Hth message envelope r rc.
  subst r rc. unfold call, callWithCallbacks, promise_on_return, promise_finally.
  rewrite Hgp. fold (bridge_run o cls meth ps t gp). rewrite Hth. simpl.
  change (CALL_EXCEPTION err) with envelope.
  split; [apply last_snoc|]. split; [apply last_snoc|].
  intros Hb. rewrite Hb. simpl. repeat split; try reflexivity.
  apply promise_cons_reject.
Qed.

End CallAdapter.

(** ** The helper wrappers *)

(** C8: [getUserConsent c] is [call] on class GPConsent, method
    getUserConsent, with params [{consent_name: c}], and [launchDeeplink d] is
    [call] on class GPNavigator, method launchDeeplink, with params
    [{deeplink: d}]; when the bridge is present these are the arguments its
    primitive receives. *)
Theorem string_wrappers_shape {U C : Type} (o : GopayMiniappOptions U)
    (w : Window C) (c d : string) :
  getUserConsent o w c =
    call o w "GPConsent" "getUserConsent" (Some {[ "consent_name" := JString c ]}) None /\
  launchDeeplink o w d =
    call o w "GPNavigator" "launchDeeplink" (Some {[ "deeplink" := JString d ]}) None /\
  bridge_calls (getUserConsent o w c) =
    match gpContainer w with
    | Some _ =>
      [{| className := "GPConsent"; methodName := "getUserConsent";
          params := {[ "consent_name" := JString c ]}; timeout := timeout_of o |}]
    | None => []
    end /\
  bridge_calls (launchDeeplink o w d) =
    match gpContainer w with
    | Some _ =>
      [{| className := "GPNavigator"; methodName := "launchDeeplink";
          params := {[ "deeplink" := JString d ]}; timeout := timeout_of o |}]
    | None => []
    end.
Proof.
  unfold getUserConsent, launchDeeplink, call.
  destruct (gpContainer w); simpl; repeat split; reflexivity.
Qed.

(** The scenarios of the specification. *)
Example getUserConsent_marketing (gp : GpContainer) :
  bridge_calls (getUserConsent no_options (blank_page (C:=unit) (Some gp)) "marketing") =
  [{| className := "GPConsent"; methodName := "getUserConsent";
      params := {[ "consent_name" := JString "marketing" ]}; timeout := 300000 |}].
Proof. reflexivity. Qed.

Example launchDeeplink_home (gp : GpContainer) :
  bridge_calls (launchDeeplink no_options (blank_page (C:=unit) (Some gp)) "app://home") =
  [{| className := "GPNavigator"; methodName := "launchDeeplink";
      params := {[ "deeplink" := JString "app://home" ]}; timeout := 300000 |}].
Proof. reflexivity. Qed.

(** ** The guard and the readiness flag *)

(** C10: the guard of [call] and [callWithCallbacks] reads
    [window.gpContainer] only. While the entry point exists the call is
    dispatched to the bridge, also when [isReady] is still false; the
    primitive is left alone exactly when the entry point is absent; and two
    states of the page and of the hook that agree on the entry point give the
    same result. *)
Theorem guard_reads_entry_point_only {U : Type} (o : GopayMiniappOptions U)
    (sys : System (Miniapp.State U)) (cls meth : string)
    (ps : option (gmap string JSValue)) (t : option Z) :
  let invocation :=
    {| className := cls; methodName := meth;
       params := default ∅ ps; timeout := default (timeout_of o) t |} in
  (forall gp, gpContainer (window sys) = Some gp ->
     isReady (client sys) = false ->
     bridge_calls (call o (window sys) cls meth ps t) = [invocation] /\
     cb_bridge_calls (callWithCallbacks o (window sys) cls meth ps t) = [invocation]) /\
  (gpContainer (window sys) = None <->
     bridge_calls (call o (window sys) cls meth ps t) = [] /\
     sync_settlements (call o (window sys) cls meth ps t) = [Reject SDK_NOT_LOADED]) /\
  (gpContainer (window sys) = None <->
     cb_bridge_calls (callWithCallbacks o (window sys) cls meth ps t) = [] /\
     sync_callbacks (callWithCallbacks o (window sys) cls meth ps t) =
       [FailureCallback SDK_NOT_LOADED]) /\
  (forall sys' : System (Miniapp.State U),
     gpContainer (window sys') = gpContainer (window sys) ->
     call o (window sys') cls meth ps t = call o (window sys) cls meth ps t /\
     callWithCallbacks o (window sys') cls meth ps t =
       callWithCallbacks o (window sys) cls meth ps t).
Proof.
  intros invocation. unfold call, callWithCallbacks.
  split; [|split; [|split]].
  - intros gp Hgp _. rewrite Hgp. split; reflexivity.
  - destruct (gpContainer (window sys)); simpl; split; try discriminate; try done.
    intros [? _]; discriminate.
  - destruct (gpContainer (window sys)); simpl; split; try discriminate; try done.
    intros [? _]; discriminate.
  - intros sys' Heq. rewrite Heq. split; reflexivity.
Qed.

(** ** The script loader *)

Section LoaderFacts.

Context {C : Type}.
Implicit Types (sys : System C) (inst : Instance) (o : JSAPILoaderOptions C).

Lemma evolves_refl inst : evolves inst inst.
Proof. unfold evolves. tauto. Qed.

Lemma evolves_trans inst1 inst2 inst3 :
  evolves inst1 inst2 -> evolves inst2 inst3 -> evolves inst1 inst3.
Proof.
  unfold evolves. intros (?&?&He) (?&?&He'). repeat split; [tauto..|].
  destruct He' as [->| ->]; [exact He | by right].
Qed.

Lemma history_refl sys : history sys sys.
Proof. apply Forall_Forall2_diag, Forall_forall. intros; apply evolves_refl. Qed.

Lemma history_trans sys1 sys2 sys3 :
  history sys1 sys2 -> history sys2 sys3 -> history sys1 sys3.
Proof.
  unfold history. intros H12 H23.
  eapply Forall2_trans; [|exact H12|exact H23].
  intros ???; apply evolves_trans.
Qed.

Lemma history_with_instance sys0 sys i (f : Instance -> Instance) :
  (forall inst, evolves inst (f inst)) ->
  history sys0 sys -> history sys0 (with_instance i f sys).
Proof.
  intros Hf H0. eapply history_trans; [exact H0|].
  unfold history, with_instance. simpl.
  apply Forall2_alter_r; [apply history_refl|].
  intros x y Hx Hy _. assert (x = y) as -> by congruence. apply Hf.
Qed.

Lemma history_with_client sys0 sys (f : C -> C) :
  history sys0 sys -> history sys0 (with_client f sys).
Proof. exact (fun H => H). Qed.

Lemma history_with_document sys0 sys f :
  history sys0 sys -> history sys0 (with_document f sys).
Proof. exact (fun H => H). Qed.

Lemma evolves_set_cleanup b inst : evolves inst (set_cleanup b inst).
Proof. unfold evolves; simpl; tauto. Qed.

Lemma evolves_mark_loaded inst : evolves inst (mark_loaded inst).
Proof. unfold evolves; simpl; tauto. Qed.

Lemma evolves_setIsLoading b inst : evolves inst (setIsLoading b inst).
Proof. unfold evolves; simpl; tauto. Qed.

Lemma evolves_setError inst : evolves inst (setError errorMsg inst).
Proof. unfold evolves; simpl; tauto. Qed.

Lemma evolves_set_scriptRef k inst : evolves inst (set_scriptRef k inst).
Proof. unfold evolves; simpl; tauto. Qed.

(** Closes [history sys (op ... sys)] for an operation built from the
    updates above. *)
Ltac history_steps :=
  repeat first
    [ apply history_refl
    | apply history_with_client
    | apply history_with_document
    | apply history_with_instance;
      [ intros ?;
        repeat first
          [ apply evolves_set_cleanup | apply evolves_mark_loaded
          | apply evolves_setIsLoading | apply evolves_setError
          | apply evolves_set_scriptRef
          | eapply evolves_trans;
            [| first [ apply evolves_set_cleanup | apply evolves_mark_loaded
                     | apply evolves_setIsLoading | apply evolves_setError
                     | apply evolves_set_scriptRef ] ] ]
      | ] ].

Lemma useJSAPILoader_history i o sys : history sys (useJSAPILoader i o sys).
Proof.
  unfold useJSAPILoader.
  destruct (instances sys !! i) as [inst|]; [|apply history_refl].
  destruct (loadedRef inst); [history_steps|].
  destruct (skip_requested o (window sys)); [history_steps|].
  destruct (querySelector _) as [[k el]|]; [destruct (data_loaded el)|];
    unfold with_element; history_steps.
Qed.

Lemma run_cleanup_history i sys : history sys (run_cleanup i sys).
Proof.
  unfold run_cleanup.
  destruct (instances sys !! i) as [inst|]; [|apply history_refl].
  destruct (cleanup inst); [|apply history_refl].
  apply history_with_instance; [apply evolves_set_cleanup|].
  unfold effect_cleanup.
  destruct (instances sys !! i) as [inst'|]; [|apply history_refl].
  destruct (scriptRef inst') as [k|]; [|apply history_refl].
  destruct (document (window sys) !! k) as [el|]; [|apply history_refl].
  destruct (in_document el); unfold with_element; history_steps.
Qed.

Lemma reuse_listener_history h sys : history sys (reuse_listener h sys).
Proof. unfold reuse_listener. history_steps. Qed.

Lemma own_onload_history k h sys : history sys (own_onload k h sys).
Proof. unfold own_onload, with_element. history_steps. Qed.

Lemma own_onerror_history h err sys : history sys (own_onerror h err sys).
Proof.
  unfold own_onerror. cbv zeta.
  change (history sys
    (with_client (match captured_onError h with Some g => g err | None => fun c => c end)
       (with_instance (e_owner h) (fun inst => setIsLoading false (setError errorMsg inst)) sys))).
  history_steps.
Qed.

Lemma listeners_history (hs : list (LoadHandler C)) sys :
  history sys (fold_left (fun s h => reuse_listener h s) hs sys).
Proof.
  revert sys. induction hs as [|h hs IH]; intros sys; simpl; [apply history_refl|].
  eapply history_trans; [apply reuse_listener_history | apply IH].
Qed.

Lemma step_history sys (s : Step C) : history sys (step sys s).
Proof.
  destruct s as [i o|i|k|k err|g]; simpl.
  - eapply history_trans; [apply run_cleanup_history | apply useJSAPILoader_history].
  - apply run_cleanup_history.
  - unfold dispatch_load.
    destruct (document (window sys) !! k) as [el|]; [|apply history_refl].
    eapply history_trans; [|apply listeners_history].
    destruct (onload el); [apply own_onload_history | apply history_refl].
  - unfold dispatch_error.
    destruct (document (window sys) !! k) as [el|]; [|apply history_refl].
    destruct (onerror el); [apply own_onerror_history | apply history_refl].
  - exact (history_refl sys).
Qed.

Lemma run_history (trace : list (Step C)) sys : history sys (run trace sys).
Proof.
  revert sys. induction trace as [|s trace IH]; intros sys; simpl; [apply history_refl|].
  eapply history_trans; [apply step_history | apply IH].
Qed.

End LoaderFacts.

Lemma lookup_with_instance {C : Type} (sys : System C) i f inst :
  instances sys !! i = Some inst ->
  instances (with_instance i f sys) !! i = Some (f inst).
Proof. intros H. unfold with_instance. simpl. by rewrite list_lookup_alter_eq, H. Qed.

Lemma lookup_with_instance_ne {C : Type} (sys : System C) i j f :
  i <> j ->
  instances (with_instance i f sys) !! j = instances sys !! j.
Proof. intros H. unfold with_instance. simpl. by apply list_lookup_alter_ne. Qed.

(** C5: in every activation in which [skipIfExists] is supplied and
    returns true, the instance is marked loaded ([isLoaded] and [loadedRef]
    become true), [onLoad] is invoked once before the effect returns, and
    the window is left as it was: no script element is created or appended,
    [scriptRef] stays as it was and [isLoading] is not raised. *)
Theorem skip_if_exists_short_circuit {C : Type} (sys : System C) (i : nat)
    (o : JSAPILoaderOptions C) (inst : Instance) :
  instances sys !! i = Some inst ->
  skipIfExists_returns i o sys = Some true ->
  let sys' := useJSAPILoader i o sys in
  window sys' = window sys /\
  client sys' = opt_call (onLoad o) (client sys) /\
  (exists inst',
     instances sys' !! i = Some inst' /\
     isLoaded inst' = true /\ loadedRef inst' = true /\
     isLoading inst' = isLoading inst /\ scriptRef inst' = scriptRef inst /\
     error inst' = error inst /\ cleanup inst' = false) /\
  (forall j, j <> i -> instances sys' !! j = instances sys !! j).
Proof.
  intros Hi Hret sys'. subst sys'.
  unfold skipIfExists_returns in Hret. rewrite Hi in Hret.
  destruct (loadedRef inst) eqn:Hl; [discriminate|].
  destruct (skipIfExists o) as [p|] eqn:Ho; [|discriminate].
  injection Hret as Hp.
  unfold useJSAPILoader, skip_requested. rewrite Hi, Hl, Ho, Hp.
  split; [reflexivity|]. split; [reflexivity|]. split.
  - eexists. split.
    + change (instances (with_client ?f ?s)) with (instances s).
      apply lookup_with_instance, Hi.
    + simpl. repeat split; reflexivity.
  - intros j Hj. change (instances (with_client ?f ?s)) with (instances s).
    apply lookup_with_instance_ne. congruence.
Qed.

(** C6 as amended: when the error event of a script element created by the
    loader fires, the instance gets the error "Failed to load script: <url>"
    and [isLoading] false, [onError] is invoked with the event, the message
    and the event are logged, and the handler creates no element and touches
    no script (no retry); whatever happens afterwards, the error message of
    the instance is never cleared. The instance is still not marked loaded
    ([loadedRef] is unchanged). *)
Theorem script_error_reported {C : Type} (sys : System C) (k : nat)
    (el : ScriptElement C) (h : ErrorHandler C) (inst : Instance) (err : Event) :
  document (window sys) !! k = Some el ->
  onerror el = Some h ->
  instances sys !! e_owner h = Some inst ->
  let sys' := step sys (ErrorEvent k err) in
  errorMsg = "Failed to load script: https://gwk.gopayapi.com/sdk/stable/gp-container.min.js" /\
  (exists inst',
     instances sys' !! e_owner h = Some inst' /\
     error inst' = Some errorMsg /\ isLoading inst' = false /\
     isLoaded inst' = isLoaded inst /\ loadedRef inst' = loadedRef inst /\
     scriptRef inst' = scriptRef inst) /\
  client sys' =
    match captured_onError h with
    | Some g => g err (client sys)
    | None => client sys
    end /\
  document (window sys') = document (window sys) /\
  gpContainer (window sys') = gpContainer (window sys) /\
  console (window sys') = console (window sys) ++ [(errorMsg, err)] /\
  (forall trace inst',
     instances (run trace sys') !! e_owner h = Some inst' ->
     error inst' = Some errorMsg).
Proof.
  intros Hk Hh Hi sys'.
  assert (Hsys : sys' = own_onerror h err sys).
  { subst sys'. simpl. unfold dispatch_error. by rewrite Hk, Hh. }
  rewrite Hsys. clear Hsys sys'.
  assert (Hinst : instances (own_onerror h err sys) !! e_owner h =
                  Some (setIsLoading false (setError errorMsg inst))).
  { unfold own_onerror. simpl. by rewrite list_lookup_alter_eq, Hi. }
  split; [reflexivity|]. split.
  { eexists. split; [exact Hinst|]. simpl. repeat split; reflexivity. }
  split; [unfold own_onerror; simpl; by destruct (captured_onError h)|].
  split; [reflexivity|]. split; [reflexivity|]. split; [reflexivity|].
  intros trace inst' Hrun.
  pose proof (run_history trace (own_onerror h err sys)) as Hhist.
  destruct (Forall2_lookup_lr _ _ _ _ _ _ Hhist Hinst Hrun) as (_ & _ & [He|He]).
  - rewrite He. reflexivity.
  - exact He.
Qed.

(** C6, counterexample: on an empty page an instance is activated and its
    script fails; the instance is then in the errored state, which is not
    terminal: when its effect runs again the instance is loading again and a
    new script element is in the document. *)
Lemma errored_not_terminal :
  let sys := run [Activate 0 plain_options; ErrorEvent 0 (NewEvent "error")]
                 (mount (blank_page (C:=unit) None) 1 tt) in
  (exists inst, instances sys !! 0 = Some inst /\ errored inst) /\
  (exists inst', instances (step sys (Activate 0 plain_options)) !! 0 = Some inst' /\
     isLoading inst' = true /\ error inst' = Some errorMsg /\ scriptRef inst' = Some 1 /\
     sdk_scripts (document (window (step sys (Activate 0 plain_options)))) = 1) /\
  ~ terminal 0 sys.
Proof.
  split; [|split].
  - eexists. split; [reflexivity|]. repeat split; reflexivity.
  - eexists. split; [reflexivity|]. repeat split; reflexivity.
  - intros Hterm.
    destruct (Hterm (Activate 0 plain_options) _ _ eq_refl eq_refl) as [Hloading _].
    discriminate Hloading.
Qed.

Section Reuse.

Context {C : Type}.
Implicit Types (sys : System C) (doc : list (ScriptElement C)).

Lemma sdk_scripts_alter doc k (f : ScriptElement C -> ScriptElement C) :
  (forall el, matches (f el) <-> matches el) ->
  sdk_scripts (alter f k doc) = sdk_scripts doc.
Proof.
  intros Hf. unfold sdk_scripts. revert k.
  induction doc as [|el doc IH]; intros [|k]; simpl; try reflexivity.
  - rewrite !filter_cons.
    pose proof (Hf el) as Hel.
    destruct (decide (matches (f el))) as [Hm|Hm], (decide (matches el)) as [Hm'|Hm'];
      try reflexivity; exfalso; tauto.
  - rewrite !filter_cons. specialize (IH k).
    destruct (decide (matches el)); simpl; change (list_alter f k doc) with (alter f k doc);
      by rewrite IH.
Qed.

Lemma sdk_scripts_snoc doc el :
  matches el -> sdk_scripts (doc ++ [el]) = S (sdk_scripts doc).
Proof.
  intros Hm. unfold sdk_scripts. rewrite filter_app, length_app.
  rewrite filter_cons_True by exact Hm. simpl. lia.
Qed.

Lemma querySelector_none doc : sdk_scripts doc = 0 -> querySelector doc = None.
Proof.
  unfold sdk_scripts, querySelector. intros Hlen.
  apply list_find_None, Forall_forall. intros el Hel Hm.
  apply nil_length_inv in Hlen.
  exact (filter_nil_not_elem_of _ _ _ Hlen Hm Hel).
Qed.

Lemma matches_new_script i (o : JSAPILoaderOptions C) : matches (new_script i o).
Proof. split; reflexivity. Qed.

Lemma matches_add_load_listener h (el : ScriptElement C) :
  matches (add_load_listener h el) <-> matches el.
Proof. reflexivity. Qed.

(** An activation that finds a script for the URL leaves the number of
    elements, and of SDK scripts, as it was. *)
Lemma found_no_duplicate sys i o k el :
  querySelector (document (window sys)) = Some (k, el) ->
  length (document (window (useJSAPILoader i o sys))) = length (document (window sys)) /\
  sdk_scripts (document (window (useJSAPILoader i o sys))) =
    sdk_scripts (document (window sys)).
Proof.
  intros Hq. unfold useJSAPILoader.
  destruct (instances sys !! i) as [inst|]; [|done].
  destruct (loadedRef inst); [done|].
  destruct (skip_requested o (window sys)); [done|].
  simpl. rewrite Hq. destruct (data_loaded el); [done|]. simpl. split.
  - apply length_alter.
  - apply sdk_scripts_alter. intros; apply matches_add_load_listener.
Qed.

Lemma listeners_snoc (hs : list (LoadHandler C)) h sys :
  fold_left (fun s h => reuse_listener h s) (hs ++ [h]) sys =
  reuse_listener h (fold_left (fun s h => reuse_listener h s) hs sys).
Proof. by rewrite fold_left_app. Qed.

(** C9 as amended. An activation that finds a script element for the URL
    in the document creates no element: the number of elements and of
    SDK scripts is unchanged. If the element carries [data-loaded], the
    instance is marked loaded and [onLoad] is invoked at once. Otherwise a
    load listener is added to that element and nothing else changes; the
    next load event of the element ends with that listener, which marks the
    instance loaded and invokes [onLoad]. Hence, on a page with no SDK
    script, after the activation of one instance (which creates the script)
    and then of a second one, the document holds exactly one SDK script. *)
Theorem existing_script_reused :
  (forall sys i o inst k el,
     instances sys !! i = Some inst ->
     finds i o sys = Some (k, el) ->
     let sys' := useJSAPILoader i o sys in
     let listener := {| owner := i; captured_onLoad := onLoad o |} in
     length (document (window sys')) = length (document (window sys)) /\
     sdk_scripts (document (window sys')) = sdk_scripts (document (window sys)) /\
     (data_loaded el = true ->
        window sys' = window sys /\
        client sys' = opt_call (onLoad o) (client sys) /\
        instances sys' !! i = Some (set_cleanup false (mark_loaded inst))) /\
     (data_loaded el = false ->
        document (window sys') = alter (add_load_listener listener) k (document (window sys)) /\
        client sys' = client sys /\
        instances sys' !! i = Some (set_cleanup false inst) /\
        exists before inst_before,
          step sys' (LoadEvent k) = reuse_listener listener before /\
          instances before !! i = Some inst_before /\
          instances (step sys' (LoadEvent k)) !! i = Some (mark_loaded inst_before) /\
          client (step sys' (LoadEvent k)) = opt_call (onLoad o) (client before))) /\
  (forall (w : Window C) (c : C) o1 o2,
     sdk_scripts (document w) = 0 ->
     skip_requested o1 w = false ->
     let sys1 := step (mount w 2 c) (Activate 0 o1) in
     let sys2 := step sys1 (Activate 1 o2) in
     document (window sys1) = document w ++ [new_script 0 o1] /\
     sdk_scripts (document (window sys1)) = 1 /\
     sdk_scripts (document (window sys2)) = 1 /\
     length (document (window sys2)) = S (length (document w))).
Proof.
  split.
  - intros sys i o inst k el Hi Hfinds sys' listener.
    unfold finds in Hfinds. rewrite Hi in Hfinds.
    destruct (loadedRef inst) eqn:Hl; [discriminate|].
    destruct (skip_requested o (window sys)) eqn:Hs; [discriminate|].
    rename Hfinds into Hq.
    destruct (found_no_duplicate sys i o k el Hq) as [Hlen Hsdk].
    split; [exact Hlen|]. split; [exact Hsdk|].
    subst sys'. unfold useJSAPILoader. rewrite Hi, Hl, Hs, Hq.
    split; intros Hd; rewrite Hd.
    + split; [reflexivity|]. split; [reflexivity|].
      exact (lookup_with_instance sys i
               (fun inst => set_cleanup false (mark_loaded inst)) inst Hi).
    + split; [reflexivity|]. split; [reflexivity|].
      assert (Hinst : instances (with_element k (add_load_listener listener)
                         (with_instance i (set_cleanup false) sys)) !! i
                      = Some (set_cleanup false inst)).
      { change (instances (with_element ?k ?f ?s)) with (instances s).
        apply lookup_with_instance, Hi. }
      split; [exact Hinst|].
      set (sys' := with_element k _ _) in *.
      apply list_find_Some in Hq as (Hk & _ & _).
      assert (Hk' : document (window sys') !! k = Some (add_load_listener listener el)).
      { subst sys'. simpl. by rewrite list_lookup_alter_eq, Hk. }
      simpl. unfold dispatch_load. rewrite Hk'.
      change (load_listeners (add_load_listener listener el))
        with (load_listeners el ++ [listener]).
      rewrite listeners_snoc.
      set (start := match onload (add_load_listener listener el) with
                    | Some h => own_onload k h sys'
                    | None => sys'
                    end).
      assert (Hstart : history sys' start).
      { subst start. destruct (onload _); [apply own_onload_history|apply history_refl]. }
      pose proof (history_trans _ _ _ Hstart (listeners_history (load_listeners el) start))
        as Hbefore.
      destruct (Forall2_lookup_l _ _ _ _ _ Hbefore Hinst) as (inst_before & Hib & _).
      exists (fold_left (fun s h => reuse_listener h s) (load_listeners el) start), inst_before.
      split; [reflexivity|]. split; [exact Hib|]. split; [|reflexivity].
      unfold reuse_listener.
      change (instances (with_client ?f ?s)) with (instances s).
      apply lookup_with_instance, Hib.
  - intros w c o1 o2 H0 Hs sys1 sys2.
    assert (Hsys1 : sys1 =
      with_document (fun doc => doc ++ [new_script 0 o1])
        (with_instance 0
           (fun inst => set_cleanup true (set_scriptRef (length (document w)) (setIsLoading true inst)))
           (mount w 2 c))).
    { subst sys1. simpl. unfold useJSAPILoader. simpl.
      rewrite Hs, (querySelector_none _ H0). reflexivity. }
    assert (Hdoc1 : document (window sys1) = document w ++ [new_script 0 o1])
      by (rewrite Hsys1; reflexivity).
    assert (Hsdk1 : sdk_scripts (document (window sys1)) = 1).
    { rewrite Hdoc1, sdk_scripts_snoc, H0; [reflexivity | apply matches_new_script]. }
    split; [exact Hdoc1|]. split; [exact Hsdk1|].
    assert (Hclean : run_cleanup 1 sys1 = sys1) by (rewrite Hsys1; reflexivity).
    subst sys2. simpl. rewrite Hclean.
    destruct (querySelector (document (window sys1))) as [[k el]|] eqn:Hq.
    + destruct (found_no_duplicate sys1 1 o2 k el Hq) as [Hlen Hsdk].
      rewrite Hsdk, Hlen, Hsdk1, Hdoc1, length_app. simpl. split; [reflexivity | lia].
    + exfalso. unfold querySelector in Hq.
      rewrite list_find_None, Forall_forall in Hq.
      apply (Hq (new_script 0 o1)); [|apply matches_new_script].
      rewrite Hdoc1. apply elem_of_app. right. apply list_elem_of_singleton. reflexivity.
Qed.

End Reuse.

(** C9, counterexample: the page holds an SDK script without the marker; an
    instance is activated and attaches its listener; the load event of the
    element fires twice and [onLoad] is invoked twice: the listener stays
    attached after it has run. *)
Lemma load_listener_not_one_time :
  let sys := step (mount page_with_sdk_script 1 0) (Activate 0 (counting_options None)) in
  client sys = 0 /\
  client (step sys (LoadEvent 0)) = 1 /\
  (load_listeners <$> document (window (step sys (LoadEvent 0))) !! 0)
    = Some [{| owner := 0; captured_onLoad := Some S |}] /\
  client (step (step sys (LoadEvent 0)) (LoadEvent 0)) = 2.
Proof. repeat split; reflexivity. Qed.

(** ** The readiness flag of [useMiniapp] *)

Section Readiness.

Variable t : option Z.
Abbreviation o := (spy_options t).
Abbreviation MState := (Miniapp.State (list UserCall)).
Implicit Types (sys : System MState) (m : MState).

Lemma onReady_calls_snoc_ready calls :
  onReady_calls (calls ++ [OnReadyCalled]) = S (onReady_calls calls).
Proof.
  unfold onReady_calls. rewrite filter_app, length_app.
  rewrite filter_cons_True by reflexivity. simpl. lia.
Qed.

Lemma onReady_calls_snoc_error calls err :
  onReady_calls (calls ++ [OnErrorCalled err]) = onReady_calls calls.
Proof.
  unfold onReady_calls. rewrite filter_app, length_app.
  rewrite filter_cons_False by discriminate. simpl. lia.
Qed.

Lemma miniapp_onLoad_ok m :
  client_ok m ->
  client_ok (miniapp_onLoad o m) /\
  isReady (miniapp_onLoad o m) = true /\
  (readyRef m = true -> miniapp_onLoad o m = m).
Proof.
  unfold client_ok, miniapp_onLoad. destruct m as [ready latch calls]. simpl.
  intros [-> Hcount]. destruct ready; simpl.
  - repeat split; [exact Hcount].
  - split; [|split; [reflexivity | discriminate]].
    split; [reflexivity|]. by rewrite onReady_calls_snoc_ready, Hcount.
Qed.

Lemma miniapp_onError_ok err m :
  client_ok m ->
  client_ok (miniapp_onError o err m) /\
  isReady (miniapp_onError o err m) = isReady m.
Proof.
  unfold client_ok, miniapp_onError. simpl. intros [Href Hcount].
  rewrite onReady_calls_snoc_error. repeat split; assumption.
Qed.

Lemma advance_refl sys : ready_inv o sys -> advance o sys sys.
Proof. intros H. split; [exact H | exact (fun H => H)]. Qed.

Lemma advance_trans sys1 sys2 sys3 :
  advance o sys1 sys2 -> advance o sys2 sys3 -> advance o sys1 sys3.
Proof. intros [_ H12] [H3 H23]. split; [exact H3 | auto]. Qed.

Lemma advance_with_instance sys i (f : Instance -> Instance) :
  (forall inst, evolves inst (f inst)) ->
  ready_inv o sys -> advance o sys (with_instance i f sys).
Proof.
  intros Hf (Hlen & Hc & Hr & Hd). split; [|exact (fun H => H)].
  split; [|split; [|split]]; simpl; [by rewrite length_alter | exact Hc | | exact Hd].
  intros Hready. destruct (Hr Hready) as (inst & H0 & Hld & Hlr).
  unfold loaded0. simpl. destruct (decide (i = 0)) as [->|Hne].
  - exists (f inst). rewrite list_lookup_alter_eq, H0.
    destruct (Hf inst) as (H1 & H2 & _). auto.
  - exists inst. rewrite list_lookup_alter_ne by exact Hne. auto.
Qed.

Lemma advance_with_document sys f :
  Forall (element_ok o) (f (document (window sys))) ->
  ready_inv o sys -> advance o sys (with_document f sys).
Proof.
  intros Hf (Hlen & Hc & Hr & _). split; [|exact (fun H => H)].
  split; [|split; [|split]]; simpl; assumption.
Qed.

Lemma advance_with_element sys k f :
  (forall el, element_ok o el -> element_ok o (f el)) ->
  ready_inv o sys -> advance o sys (with_element k f sys).
Proof.
  intros Hf Hinv. apply advance_with_document; [|exact Hinv].
  destruct Hinv as (_ & _ & _ & Hd). apply Forall_alter; auto.
Qed.

Lemma advance_onLoad sys :
  loaded0 sys ->
  ready_inv o sys ->
  advance o sys (with_client (opt_call (Some (miniapp_onLoad o))) sys).
Proof.
  intros Hloaded (Hlen & Hc & Hr & Hd).
  destruct (miniapp_onLoad_ok _ Hc) as (Hc' & Hready & _).
  split; [|intros _; exact Hready].
  split; [|split; [|split]]; simpl; [exact Hlen | exact Hc' | | exact Hd].
  intros _. exact Hloaded.
Qed.

Lemma advance_onError sys err :
  ready_inv o sys ->
  advance o sys (with_client (miniapp_onError o err) sys).
Proof.
  intros (Hlen & Hc & Hr & Hd).
  destruct (miniapp_onError_ok err _ Hc) as (Hc' & Hsame).
  split.
  - split; [|split; [|split]]; [exact Hlen | exact Hc' | | exact Hd].
    intros Hready.
    change (isReady (miniapp_onError o err (client sys)) = true) in Hready.
    rewrite Hsame in Hready. exact (Hr Hready).
  - intros Hready.
    change (isReady (miniapp_onError o err (client sys)) = true).
    by rewrite Hsame.
Qed.

Lemma loaded0_mark sys (f : Instance -> Instance) :
  (forall inst, evolves (mark_loaded inst) (f inst)) ->
  length (instances sys) = 1 ->
  loaded0 (with_instance 0 f sys).
Proof.
  intros Hf Hlen. destruct (instances sys) as [|inst [|]] eqn:Hi; try discriminate.
  exists (f inst). unfold with_instance. rewrite Hi. simpl.
  destruct (Hf inst) as (H1 & H2 & _). auto.
Qed.

Lemma element_ok_mark el :
  element_ok o el ->
  element_ok o
    {| src := src el; el_async := el_async el; el_defer := el_defer el;
       data_loaded := true; in_document := in_document el;
       onload := onload el; onerror := onerror el;
       load_listeners := load_listeners el |}.
Proof. exact (fun H => H). Qed.

Lemma element_ok_detach el : element_ok o el -> element_ok o (detach el).
Proof. exact (fun H => H). Qed.

Lemma element_ok_listener i el :
  i = 0 ->
  element_ok o el ->
  element_ok o
    (add_load_listener {| owner := i; captured_onLoad := onLoad (loader_options o) |} el).
Proof.
  intros -> (H1 & H2 & H3). split; [exact H1|]. split; [|exact H3].
  simpl. apply Forall_app. split; [exact H2|].
  constructor; [|constructor]. split; reflexivity.
Qed.

Lemma element_ok_new i : i = 0 -> element_ok o (new_script i (loader_options o)).
Proof.
  intros ->. split; [|split]; simpl.
  - intros h [= <-]. split; reflexivity.
  - constructor.
  - intros h [= <-]. split; reflexivity.
Qed.

Lemma reuse_listener_advance sys h :
  handler_ok o h -> ready_inv o sys -> advance o sys (reuse_listener h sys).
Proof.
  intros [Hown Hcb] Hinv. unfold reuse_listener. rewrite Hown, Hcb.
  eapply advance_trans.
  - apply (advance_with_instance sys 0 mark_loaded); [apply evolves_mark_loaded | exact Hinv].
  - apply advance_onLoad.
    + apply loaded0_mark; [intros; apply evolves_refl | apply Hinv].
    + apply (advance_with_instance sys 0 mark_loaded); [apply evolves_mark_loaded | exact Hinv].
Qed.

Lemma own_onload_advance sys k h :
  handler_ok o h -> ready_inv o sys -> advance o sys (own_onload k h sys).
Proof.
  intros [Hown Hcb] Hinv. unfold own_onload. rewrite Hown, Hcb.
  set (f := fun inst => setIsLoading false (mark_loaded inst)).
  assert (Hf : forall inst, evolves inst (f inst)).
  { intros inst. eapply evolves_trans; [apply evolves_mark_loaded | apply evolves_setIsLoading]. }
  assert (H1 : advance o sys (with_element k
      (fun el => {| src := src el; el_async := el_async el; el_defer := el_defer el;
                    data_loaded := true; in_document := in_document el;
                    onload := onload el; onerror := onerror el;
                    load_listeners := load_listeners el |}) sys)).
  { apply advance_with_element; [apply element_ok_mark | exact Hinv]. }
  set (sys1 := with_element k _ sys) in *.
  assert (H2 : advance o sys1 (with_instance 0 f sys1)).
  { apply advance_with_instance; [exact Hf | apply H1]. }
  eapply advance_trans; [exact H1|]. eapply advance_trans; [exact H2|].
  apply advance_onLoad; [|apply H2].
  apply loaded0_mark; [intros; apply evolves_setIsLoading | apply H1].
Qed.

Lemma own_onerror_advance sys h err :
  captured_onError h = Some (miniapp_onError o) ->
  ready_inv o sys -> advance o sys (own_onerror h err sys).
Proof.
  intros Hcb Hinv. unfold own_onerror. rewrite Hcb. cbv zeta.
  set (f := fun inst => setIsLoading false (setError errorMsg inst)).
  assert (H1 : advance o sys (with_instance (e_owner h) f sys)).
  { apply advance_with_instance; [|exact Hinv].
    intros inst. eapply evolves_trans; [apply evolves_setError | apply evolves_setIsLoading]. }
  set (sys1 := with_instance (e_owner h) f sys) in *.
  assert (H2 : advance o sys1 (with_client (miniapp_onError o err) sys1)).
  { apply advance_onError, H1. }
  eapply advance_trans; [exact H1|]. eapply advance_trans; [exact H2|].
  set (sys2 := with_client _ sys1) in *.
  apply (advance_with_document sys2 (fun doc => doc)); apply H2.
Qed.

Lemma only_instance sys i inst :
  ready_inv o sys -> instances sys !! i = Some inst -> i = 0.
Proof.
  intros (Hlen & _) Hi. apply lookup_lt_Some in Hi. lia.
Qed.

Lemma marked_advance sys :
  ready_inv o sys ->
  advance o sys
    (with_client (opt_call (onLoad (loader_options o)))
       (with_instance 0 (fun inst => set_cleanup false (mark_loaded inst)) sys)).
Proof.
  intros Hinv.
  set (f := fun inst => set_cleanup false (mark_loaded inst)).
  assert (H1 : advance o sys (with_instance 0 f sys)).
  { apply advance_with_instance; [|exact Hinv].
    intros inst. eapply evolves_trans; [apply evolves_mark_loaded | apply evolves_set_cleanup]. }
  eapply advance_trans; [exact H1|].
  apply advance_onLoad; [|apply H1].
  apply loaded0_mark; [intros; apply evolves_set_cleanup | apply Hinv].
Qed.

Lemma useJSAPILoader_advance sys i :
  ready_inv o sys -> advance o sys (useJSAPILoader i (loader_options o) sys).
Proof.
  intros Hinv. unfold useJSAPILoader.
  destruct (instances sys !! i) as [inst|] eqn:Hi; [|by apply advance_refl].
  assert (i = 0) as -> by exact (only_instance _ _ _ Hinv Hi).
  destruct (loadedRef inst).
  { apply advance_with_instance; [apply evolves_set_cleanup | exact Hinv]. }
  destruct (skip_requested _ _); [by apply marked_advance|].
  destruct (querySelector _) as [[k el]|].
  - destruct (data_loaded el); [by apply marked_advance|].
    assert (H1 : advance o sys (with_instance 0 (set_cleanup false) sys)).
    { apply advance_with_instance; [apply evolves_set_cleanup | exact Hinv]. }
    eapply advance_trans; [exact H1|].
    apply advance_with_element; [|apply H1].
    intros el'. by apply element_ok_listener.
  - set (f := fun inst => set_cleanup true
                (set_scriptRef (length (document (window sys))) (setIsLoading true inst))).
    assert (H1 : advance o sys (with_instance 0 f sys)).
    { apply advance_with_instance; [|exact Hinv].
      intros x. eapply evolves_trans; [apply evolves_setIsLoading|].
      eapply evolves_trans; [apply evolves_set_scriptRef | apply evolves_set_cleanup]. }
    eapply advance_trans; [exact H1|].
    apply advance_with_document; [|apply H1].
    apply Forall_app. split; [apply Hinv|].
    constructor; [by apply element_ok_new | constructor].
Qed.

Lemma run_cleanup_advance sys i :
  ready_inv o sys -> advance o sys (run_cleanup i sys).
Proof.
  intros Hinv. unfold run_cleanup.
  destruct (instances sys !! i) as [inst|]; [|by apply advance_refl].
  destruct (cleanup inst); [|by apply advance_refl].
  assert (H1 : advance o sys (effect_cleanup i sys)).
  { unfold effect_cleanup.
    destruct (instances sys !! i) as [inst'|]; [|by apply advance_refl].
    destruct (scriptRef inst') as [k|]; [|by apply advance_refl].
    destruct (document (window sys) !! k) as [el|]; [|by apply advance_refl].
    destruct (in_document el); [|by apply advance_refl].
    apply advance_with_element; [apply element_ok_detach | exact Hinv]. }
  eapply advance_trans; [exact H1|].
  apply advance_with_instance; [apply evolves_set_cleanup | apply H1].
Qed.

Lemma listeners_advance (hs : list (LoadHandler MState)) sys :
  Forall (handler_ok o) hs ->
  ready_inv o sys ->
  advance o sys (fold_left (fun s h => reuse_listener h s) hs sys).
Proof.
  intros Hhs. revert sys. induction Hhs as [|h hs Hh _ IH]; intros sys Hinv; simpl.
  - by apply advance_refl.
  - pose proof (reuse_listener_advance sys h Hh Hinv) as H1.
    eapply advance_trans; [exact H1 | apply IH, H1].
Qed.

Lemma step_advance sys (s : Step MState) :
  miniapp_step o s -> ready_inv o sys -> advance o sys (step sys s).
Proof.
  intros Hs Hinv. destruct s as [i o'|i|k|k err|g]; simpl in *.
  - subst o'. pose proof (run_cleanup_advance sys i Hinv) as H1.
    eapply advance_trans; [exact H1 | apply useJSAPILoader_advance, H1].
  - by apply run_cleanup_advance.
  - unfold dispatch_load.
    destruct (document (window sys) !! k) as [el|] eqn:Hk; [|by apply advance_refl].
    assert (Hel : element_ok o el).
    { destruct Hinv as (_ & _ & _ & Hd). rewrite Forall_lookup in Hd. exact (Hd _ _ Hk). }
    destruct Hel as (Hon & Hls & _).
    assert (H1 : advance o sys match onload el with
                               | Some h => own_onload k h sys
                               | None => sys
                               end).
    { destruct (onload el) as [h|]; [|by apply advance_refl].
      apply own_onload_advance; [by apply Hon | exact Hinv]. }
    eapply advance_trans; [exact H1|]. apply listeners_advance; [exact Hls | apply H1].
  - unfold dispatch_error.
    destruct (document (window sys) !! k) as [el|] eqn:Hk; [|by apply advance_refl].
    assert (Hel : element_ok o el).
    { destruct Hinv as (_ & _ & _ & Hd). rewrite Forall_lookup in Hd. exact (Hd _ _ Hk). }
    destruct Hel as (_ & _ & Herr).
    destruct (onerror el) as [h|]; [|by apply advance_refl].
    apply own_onerror_advance; [by apply Herr | exact Hinv].
  - split; [|exact (fun H => H)]. exact Hinv.
Qed.

Lemma run_advance (trace : list (Step MState)) sys :
  Forall (miniapp_step o) trace -> ready_inv o sys -> advance o sys (run trace sys).
Proof.
  intros Htrace. revert sys.
  induction Htrace as [|s trace Hs _ IH]; intros sys Hinv; simpl.
  - by apply advance_refl.
  - pose proof (step_advance sys s Hs Hinv) as H1.
    eapply advance_trans; [exact H1 | apply IH, H1].
Qed.

Lemma useMiniapp_inv (w : Window MState) :
  Forall foreign (document w) -> ready_inv o (useMiniapp w []).
Proof.
  intros Hw. split; [reflexivity|]. split; [split; reflexivity|].
  split; [discriminate|]. simpl.
  eapply Forall_impl; [exact Hw|].
  intros el (H1 & H2 & H3). unfold element_ok. rewrite H1, H2, H3.
  split; [discriminate|]. split; [constructor | discriminate].
Qed.

End Readiness.

(** C7, counterexample: on an empty page without the bridge the script is
    created and its load event fires while [window.gpContainer] is still
    absent; the hook is ready, [onReady] has been invoked, and a call is
    rejected with SDK_NOT_LOADED. *)
Lemma ready_without_entry_point :
  let o := spy_options None in
  let sys := run [Activate 0 (loader_options o); LoadEvent 0]
                 (useMiniapp (blank_page None) []) in
  isReady (client sys) = true /\
  gpContainer (window sys) = None /\
  user (client sys) = [OnReadyCalled] /\
  sync_settlements (call o (window sys) "GPSystem" "getLocale" None None) =
    [Reject SDK_NOT_LOADED].
Proof. repeat split; reflexivity. Qed.

(** ** The properties at concrete inputs *)

Lemma not_loaded_guard_witness :
  gpContainer (blank_page (C:=unit) None) = None /\
  promise_on_return
    (call no_options (blank_page (C:=unit) None) "TestClass" "testMethod" None None)
  = Rejected SDK_NOT_LOADED.
Proof.
  split; [reflexivity|].
  pose proof (not_loaded_guard no_options (blank_page (C:=unit) None)
                "TestClass" "testMethod" None None eq_refl) as H.
  cbv zeta in H. destruct H as (_ & _ & _ & H & _). exact H.
Defined.

Lemma error_envelope_verbatim_witness :
  let w := blank_page (C:=unit) (Some (answering (SuccessChannel (ErrorResponse errorResponse)))) in
  delivers_error errorResponse (SuccessChannel (ErrorResponse errorResponse)) /\
  promise_on_return (call no_options w "TestClass" "testMethod" None None)
  = Rejected errorResponse.
Proof.
  intros w.
  assert (Hd : delivers_error errorResponse (SuccessChannel (ErrorResponse errorResponse)))
    by (apply through_success; reflexivity).
  split; [exact Hd|].
  pose proof (error_envelope_verbatim no_options w "TestClass" "testMethod" None None
                _ _ _ eq_refl Hd) as H.
  cbv zeta in H. destruct H as (_ & _ & _ & H & _).
  exact (proj1 (H [] eq_refl)).
Defined.

Lemma success_envelope_verbatim_witness :
  let w := blank_page (C:=unit) (Some (answering (SuccessChannel (SuccessResponse successResponse)))) in
  delivers_success successResponse (SuccessChannel (SuccessResponse successResponse)) /\
  promise_on_return (call no_options w "TestClass" "testMethod" None None)
  = Fulfilled successResponse.
Proof.
  intros w.
  assert (Hd : delivers_success successResponse (SuccessChannel (SuccessResponse successResponse)))
    by (apply success_true; reflexivity).
  split; [exact Hd|].
  pose proof (success_envelope_verbatim no_options w "TestClass" "testMethod" None None
                _ _ _ eq_refl Hd) as H.
  cbv zeta in H. destruct H as (_ & _ & H & _).
  exact (proj1 (H [] eq_refl)).
Defined.

Lemma call_exception_envelope_witness :
  let w := blank_page (C:=unit) (Some (throwing (ThrownError "Test exception"))) in
  promise_on_return (call no_options w "TestClass" "testMethod" None None)
  = Rejected {| error_code := "CALL_EXCEPTION"; error_type := "JS_BRIDGE_ERROR";
                error_message := "Test exception"; ret := "GP_EXCEPTION" |}.
Proof.
  intros w.
  pose proof (call_exception_envelope no_options w "TestClass" "testMethod" None None
                _ (ThrownError "Test exception") eq_refl eq_refl) as H.
  cbv zeta in H. destruct H as (_ & _ & H).
  destruct (H eq_refl) as (_ & _ & Hp & _). exact Hp.
Defined.

Lemma skip_if_exists_short_circuit_witness :
  let sys := mount (blank_page None) 1 0 in
  let o := counting_options (Some (fun _ => true)) in
  skipIfExists_returns 0 o sys = Some true /\
  window (useJSAPILoader 0 o sys) = window sys /\
  client (useJSAPILoader 0 o sys) = 1.
Proof.
  intros sys o.
  pose proof (skip_if_exists_short_circuit sys 0 o fresh eq_refl eq_refl) as H.
  cbv zeta in H. destruct H as (Hw & Hc & _).
  split; [reflexivity|]. split; [exact Hw | exact Hc].
Defined.

Lemma script_error_reported_witness :
  let o := counting_options None in
  let sys := step (mount (blank_page None) 1 0) (Activate 0 o) in
  document (window sys) !! 0 = Some (new_script 0 o) /\
  client (step sys (ErrorEvent 0 (NewEvent "error"))) = 10 /\
  console (window (step sys (ErrorEvent 0 (NewEvent "error")))) =
    [(errorMsg, NewEvent "error")].
Proof.
  intros o sys.
  pose proof (script_error_reported sys 0 (new_script 0 o)
                {| e_owner := 0; captured_onError := onError o |}
                _ (NewEvent "error") eq_refl eq_refl eq_refl) as H.
  cbv zeta in H. destruct H as (_ & _ & Hc & _ & _ & Hlog & _).
  split; [reflexivity|]. split; [exact Hc | exact Hlog].
Defined.

Lemma existing_script_reused_witness :
  let sys := mount (page_with_sdk_script (C:=nat)) 1 0 in
  let o := counting_options None in
  finds 0 o sys = Some (0, sdk_script_tag) /\
  sdk_scripts (document (window (useJSAPILoader 0 o sys))) = 1 /\
  sdk_scripts (document (window
    (step (step (mount (blank_page None) 2 0) (Activate 0 o)) (Activate 1 o)))) = 1.
Proof.
  intros sys o. split; [reflexivity|].
  destruct (existing_script_reused (C:=nat)) as [Hfound Htwo].
  pose proof (Hfound sys 0 o fresh 0 sdk_script_tag eq_refl eq_refl) as H.
  cbv zeta in H. destruct H as (_ & Hsdk & _).
  pose proof (Htwo (blank_page None) 0 o o eq_refl eq_refl) as H2.
  cbv zeta in H2. destruct H2 as (_ & _ & Hsdk2 & _).
  split; [exact Hsdk | exact Hsdk2].
Defined.

Lemma guard_reads_entry_point_only_witness :
  let sys := run [Activate 0 (loader_options no_options); SetContainer (Some silent)]
                 (useMiniapp (blank_page None) tt) in
  isReady (client sys) = false /\
  gpContainer (window sys) = Some silent /\
  bridge_calls (call no_options (window sys) "GPSystem" "getLocale" None None) =
    [{| className := "GPSystem"; methodName := "getLocale";
        params := ∅; timeout := 300000 |}].
Proof.
  intros sys. split; [reflexivity|]. split; [reflexivity|].
  pose proof (guard_reads_entry_point_only no_options sys "GPSystem" "getLocale" None None) as H.
  cbv zeta in H. destruct H as (H & _).
  exact (proj1 (H silent eq_refl eq_refl)).
Defined.

(** ** Further properties of the call adapter *)

Lemma as_callback_delivery (d : Delivery) :
  as_callback (call_delivery d) = callbacks_delivery d.
Proof. destruct d as [[r|e]|e]; reflexivity. Qed.

Lemma promise_pending_nil (l : list Settlement) : promise l = Pending <-> l = [].
Proof.
  split; [|intros ->; reflexivity].
  destruct l as [|s l]; [reflexivity|]. intros H. exfalso.
  destruct s; [rewrite promise_cons_resolve in H | rewrite promise_cons_reject in H];
    discriminate.
Qed.

Lemma promise_app_settled (l1 l2 : list Settlement) :
  promise l1 <> Pending -> promise (l1 ++ l2) = promise l1.
Proof.
  intros H. unfold promise in *. rewrite fold_left_app. by apply promise_settled.
Qed.

(** X2: [call] makes up no outcome. Every value it resolves with was
    delivered by the bridge on the success channel with [success] true;
    every reason it rejects with is the SDK_NOT_LOADED envelope (and then
    the entry point is absent), the CALL_EXCEPTION envelope of the value the
    primitive threw, or an error envelope the bridge delivered on one of its
    channels. *)
Theorem outcomes_come_from_bridge {U C : Type} (o : GopayMiniappOptions U)
    (w : Window C) (cls meth : string) (ps : option (gmap string JSValue))
    (t : option Z) (s : Settlement) :
  let r := call o w cls meth ps t in
  In s (sync_settlements r ++ async_settlements r) ->
  match s with
  | Resolve v =>
    exists gp, gpContainer w = Some gp /\
      In (SuccessChannel (SuccessResponse v))
         (during (bridge_run o cls meth ps t gp) ++ later (bridge_run o cls meth ps t gp))
  | Reject e =>
    (gpContainer w = None /\ e = SDK_NOT_LOADED) \/
    exists gp, gpContainer w = Some gp /\
      ((exists err, thrown (bridge_run o cls meth ps t gp) = Some err /\
                    e = CALL_EXCEPTION err) \/
       In (FailureChannel e)
          (during (bridge_run o cls meth ps t gp) ++ later (bridge_run o cls meth ps t gp)) \/
       In (SuccessChannel (ErrorResponse e))
          (during (bridge_run o cls meth ps t gp) ++ later (bridge_run o cls meth ps t gp)))
  end.
Proof.
  intros r. subst r. unfold call. destruct (gpContainer w) as [gp|]; simpl.
  - fold (bridge_run o cls meth ps t gp). set (b := bridge_run o cls meth ps t gp).
    intros Hin.
    assert (Hcases : (exists d, call_delivery d = s /\ In d (during b ++ later b)) \/
                     (exists err, thrown b = Some err /\ s = Reject (CALL_EXCEPTION err))).
    { rewrite !in_app_iff, !in_map_iff in Hin.
      destruct Hin as [[(d & Hd & Hd')|Hth]|(d & Hd & Hd')].
      - left. exists d. rewrite in_app_iff. auto.
      - right. destruct (thrown b) as [err|]; [|destruct Hth].
        destruct Hth as [<-|[]]. by exists err.
      - left. exists d. rewrite in_app_iff. auto. }
    clear Hin. destruct Hcases as [(d & Hd & Hin)|(err & Hth & ->)].
    + destruct d as [[v|e]|e]; simpl in Hd; subst s.
      * exists gp. auto.
      * right. exists gp. auto.
      * right. exists gp. auto.
    + right. exists gp. split; [reflexivity|]. left. by exists err.
  - intros [<-|[]]. left. auto.
Qed.

(** X3: [call] adds no outcome of its own to those of the bridge: the
    promise is still pending after all deliveries exactly when the entry
    point is present and the bridge neither invoked a callback nor threw;
    and a promise that is settled when [call] returns is not changed by what
    the bridge delivers later. *)
Theorem promise_pending_iff_bridge_silent {U C : Type} (o : GopayMiniappOptions U)
    (w : Window C) (cls meth : string) (ps : option (gmap string JSValue))
    (t : option Z) :
  let r := call o w cls meth ps t in
  (promise_finally r = Pending <->
   exists gp, gpContainer w = Some gp /\
     during (bridge_run o cls meth ps t gp) = [] /\
     thrown (bridge_run o cls meth ps t gp) = None /\
     later (bridge_run o cls meth ps t gp) = []) /\
  (promise_on_return r <> Pending -> promise_finally r = promise_on_return r).
Proof.
  intros r. split; [|apply promise_app_settled].
  unfold promise_finally. rewrite promise_pending_nil.
  subst r. unfold call. destruct (gpContainer w) as [gp|]; simpl.
  - fold (bridge_run o cls meth ps t gp). set (b := bridge_run o cls meth ps t gp).
    split.
    + intros H. exists gp. split; [reflexivity|].
      apply app_eq_nil in H as [H1 H3]. apply app_eq_nil in H1 as [H1 H2].
      apply map_eq_nil in H1, H3.
      destruct (thrown b) eqn:Hth; [discriminate|].
      split; [exact H1|]. split; [exact Hth | exact H3].
    + intros (gp' & [= <-] & H1 & H2 & H3). fold b in H1, H2, H3.
      rewrite H1, H2, H3. reflexivity.
  - split; [discriminate|]. intros (gp & Hgp & _). discriminate.
Qed.

(** X4: when the entry point is present, [call] and [callWithCallbacks]
    invoke the primitive exactly once, with the class and method they were
    given; params left out are passed as the empty object, and the timeout
    is never left out: it is the caller's if given, else the
    [defaultTimeout] of the hook's options, else 300000. *)
Theorem bridge_receives_defaults {U C : Type} (o : GopayMiniappOptions U)
    (w : Window C) (gp : GpContainer) (cls meth : string)
    (ps : option (gmap string JSValue)) (t : option Z) :
  gpContainer w = Some gp ->
  let invocation :=
    {| className := cls; methodName := meth;
       params := match ps with Some m => m | None => ∅ end;
       timeout := match t, defaultTimeout o with
                  | Some ms, _ => ms
                  | None, Some ms => ms
                  | None, None => 300000%Z
                  end |} in
  bridge_calls (call o w cls meth ps t) = [invocation] /\
  cb_bridge_calls (callWithCallbacks o w cls meth ps t) = [invocation].
Proof.
  intros Hgp. unfold call, callWithCallbacks, timeout_of. rewrite Hgp. simpl.
  destruct ps, t, (defaultTimeout o); split; reflexivity.
Qed.

(** X5: while [window.gpContainer] is absent every helper, whatever its
    argument, rejects at once with the SDK_NOT_LOADED envelope and does not
    invoke the bridge. *)
Theorem helpers_before_bridge {U C : Type} (o : GopayMiniappOptions U)
    (w : Window C) (hs : StringHelper) (hp : ParamsHelper) (arg : string)
    (ps : option (gmap string JSValue)) :
  gpContainer w = None ->
  let not_loaded :=
    {| bridge_calls := [];
       sync_settlements := [Reject SDK_NOT_LOADED];
       async_settlements := [] |} in
  string_helper hs o w arg = not_loaded /\
  params_helper hp o w ps = not_loaded /\
  promise_on_return (string_helper hs o w arg) = Rejected SDK_NOT_LOADED /\
  promise_on_return (params_helper hp o w ps) = Rejected SDK_NOT_LOADED.
Proof.
  intros Habsent not_loaded.
  assert (Hs : string_helper hs o w arg = not_loaded).
  { destruct hs; simpl;
      unfold launchDeeplink, launchUri, launchPayment, getUserConsent, call;
      by rewrite Habsent. }
  assert (Hp : params_helper hp o w ps = not_loaded).
  { destruct hp; simpl;
      unfold getAuthCode, getLocation, getSystemInfo, getWifiInfo, getRootedDeviceInfo,
        getBankAccountToken, startAccelerometer, stopAccelerometer, startCompass,
        stopCompass, vibrate, getLocale, call;
      by rewrite Habsent. }
  rewrite Hs, Hp. repeat split; reflexivity.
Qed.

(** X6: with the entry point present, every helper invokes the primitive
    exactly once, on the class the test suite expects and on the method
    that bears the helper's own name, with the hook's default timeout; a
    helper that takes a params object passes it unchanged (the empty object
    when it is left out), and a helper that takes a string passes an object
    with that string under its single key. *)
Theorem helpers_address_own_method {U C : Type} (o : GopayMiniappOptions U)
    (w : Window C) (gp : GpContainer) (hs : StringHelper) (hp : ParamsHelper)
    (arg : string) (ps : option (gmap string JSValue)) :
  gpContainer w = Some gp ->
  bridge_calls (string_helper hs o w arg) =
    [{| className := string_helper_class hs;
        methodName := string_helper_key hs;
        params := {[ string_helper_param hs := JString arg ]};
        timeout := timeout_of o |}] /\
  bridge_calls (params_helper hp o w ps) =
    [{| className := params_helper_class hp;
        methodName := params_helper_key hp;
        params := default ∅ ps;
        timeout := timeout_of o |}] /\
  string_helper hs o w arg =
    call o w (string_helper_class hs) (string_helper_key hs)
      (Some {[ string_helper_param hs := JString arg ]}) None /\
  params_helper hp o w ps =
    call o w (params_helper_class hp) (params_helper_key hp) ps None.
Proof.
  intros Hgp. split; [|split; [|split]].
  - destruct hs; simpl;
      unfold launchDeeplink, launchUri, launchPayment, getUserConsent, call;
      by rewrite Hgp.
  - destruct hp; simpl;
      unfold getAuthCode, getLocation, getSystemInfo, getWifiInfo, getRootedDeviceInfo,
        getBankAccountToken, startAccelerometer, stopAccelerometer, startCompass,
        stopCompass, vibrate, getLocale, call;
      by rewrite Hgp.
  - destruct hs; reflexivity.
  - destruct hp; simpl;
      unfold getAuthCode, getLocation, getSystemInfo, getWifiInfo, getRootedDeviceInfo,
        getBankAccountToken, startAccelerometer, stopAccelerometer, startCompass,
        stopCompass, vibrate, getLocale, call;
      by destruct ps.
Qed.

(** ** Further properties of the script loader *)

Section LoaderMore.

Context {C : Type}.
Implicit Types (sys : System C) (inst : Instance) (o : JSAPILoaderOptions C)
  (doc : list (ScriptElement C)).

Lemma querySelector_none_inv doc : querySelector doc = None -> sdk_scripts doc = 0.
Proof.
  unfold querySelector, sdk_scripts. rewrite list_find_None.
  induction 1 as [|el doc Hel _ IH]; [reflexivity|].
  rewrite filter_cons. destruct (decide (matches el)); [contradiction | exact IH].
Qed.

Lemma querySelector_snoc doc el :
  querySelector doc = None -> matches el ->
  querySelector (doc ++ [el]) = Some (length doc, el).
Proof.
  unfold querySelector. intros Hnone Hm.
  rewrite list_find_app_r by exact Hnone. simpl.
  destruct (decide (matches el)); [|contradiction]. reflexivity.
Qed.

Lemma listeners_window (hs : list (LoadHandler C)) sys :
  window (fold_left (fun s h => reuse_listener h s) hs sys) = window sys.
Proof.
  revert sys. induction hs as [|h hs IH]; intros sys; simpl; [reflexivity|].
  by rewrite IH.
Qed.

Lemma listeners_client (hs : list (LoadHandler C)) sys :
  client (fold_left (fun s h => reuse_listener h s) hs sys) =
  listeners_callbacks hs (client sys).
Proof.
  unfold listeners_callbacks. revert sys.
  induction hs as [|h hs IH]; intros sys; simpl; [reflexivity|].
  by rewrite IH.
Qed.

Lemma listeners_instances (hs : list (LoadHandler C)) sys :
  Forall2 (fun a b => b = a \/ b = mark_loaded a)
    (instances sys) (instances (fold_left (fun s h => reuse_listener h s) hs sys)).
Proof.
  revert sys. induction hs as [|h hs IH]; intros sys; simpl.
  - apply Forall_Forall2_diag, Forall_forall. auto.
  - assert (Hstep : Forall2 (fun a b => b = a \/ b = mark_loaded a)
                      (instances sys) (instances (reuse_listener h sys))).
    { unfold reuse_listener. simpl. apply Forall2_alter_r.
      - apply Forall_Forall2_diag, Forall_forall. auto.
      - intros x y Hx Hy _. assert (x = y) as -> by congruence. auto. }
    eapply Forall2_trans; [|exact Hstep|apply IH].
    intros a b c' [->| ->] [->| ->]; auto.
Qed.

(** X7: an activation that is neither stopped by the guard nor by
    [skipIfExists] and finds no script for the URL appends exactly one
    script element to the document: its [src] is the SDK URL, [async] and
    [defer] are the options' (true and false when left out), it carries no
    load marker. The instance is loading, holds the element in [scriptRef]
    and will run its cleanup; [onLoad] is not invoked; afterwards the
    document holds one more SDK script and the lookup finds the new
    element. *)
Theorem script_created_when_missing sys i o inst :
  instances sys !! i = Some inst ->
  loadedRef inst = false ->
  skip_requested o (window sys) = false ->
  querySelector (document (window sys)) = None ->
  let sys' := useJSAPILoader i o sys in
  let k := length (document (window sys)) in
  (exists el,
     document (window sys') = document (window sys) ++ [el] /\
     src el = GOPAY_SDK_URL /\
     el_async el = match async o with Some b => b | None => true end /\
     el_defer el = match defer o with Some b => b | None => false end /\
     data_loaded el = false /\ in_document el = true /\
     querySelector (document (window sys')) = Some (k, el)) /\
  gpContainer (window sys') = gpContainer (window sys) /\
  console (window sys') = console (window sys) /\
  client sys' = client sys /\
  (exists inst',
     instances sys' !! i = Some inst' /\
     isLoading inst' = true /\ scriptRef inst' = Some k /\ cleanup inst' = true /\
     isLoaded inst' = isLoaded inst /\ loadedRef inst' = false /\
     error inst' = error inst) /\
  sdk_scripts (document (window sys')) = 1.
Proof.
  intros Hi Hl Hs Hq sys' k. subst sys'. unfold useJSAPILoader.
  rewrite Hi, Hl, Hs, Hq. simpl.
  split; [|split; [reflexivity|split; [reflexivity|split; [reflexivity|split]]]].
  - exists (new_script i o). split; [reflexivity|].
    split; [reflexivity|]. split; [reflexivity|].
    split; [reflexivity|]. split; [reflexivity|]. split; [reflexivity|].
    apply querySelector_snoc; [exact Hq | split; reflexivity].
  - eexists. split; [by rewrite list_lookup_alter_eq, Hi|].
    simpl. repeat split; try reflexivity. exact Hl.
  - unfold sdk_scripts. rewrite filter_app, length_app.
    fold (sdk_scripts (document (window sys))).
    rewrite (querySelector_none_inv _ Hq).
    rewrite filter_cons_True by (split; reflexivity). reflexivity.
Qed.

(** X8: when the load event of a script element created by the loader
    fires, the element gets the load marker (and nothing else in the
    document changes), the instance that created it is loaded and no longer
    loading, with [error] and [scriptRef] untouched, and the caller's state
    is the result of [onLoad] followed by the callbacks of the listeners
    other activations attached to the element, in the order they were
    attached. *)
Theorem script_load_handled sys (k : nat) (el : ScriptElement C)
    (h : LoadHandler C) (inst : Instance) :
  document (window sys) !! k = Some el ->
  onload el = Some h ->
  instances sys !! owner h = Some inst ->
  let sys' := step sys (LoadEvent k) in
  document (window sys') = alter set_data_loaded k (document (window sys)) /\
  gpContainer (window sys') = gpContainer (window sys) /\
  console (window sys') = console (window sys) /\
  client sys' =
    listeners_callbacks (load_listeners el) (opt_call (captured_onLoad h) (client sys)) /\
  (exists inst',
     instances sys' !! owner h = Some inst' /\
     isLoaded inst' = true /\ loadedRef inst' = true /\ isLoading inst' = false /\
     error inst' = error inst /\ scriptRef inst' = scriptRef inst).
Proof.
  intros Hk Hh Hi sys'. subst sys'. simpl. unfold dispatch_load. rewrite Hk, Hh.
  set (sys1 := own_onload k h sys).
  rewrite listeners_window, listeners_client.
  split; [reflexivity|]. split; [reflexivity|]. split; [reflexivity|].
  split; [reflexivity|].
  assert (H1 : instances sys1 !! owner h = Some (setIsLoading false (mark_loaded inst))).
  { subst sys1. unfold own_onload. simpl. by rewrite list_lookup_alter_eq, Hi. }
  destruct (Forall2_lookup_l _ _ _ _ _ (listeners_instances (load_listeners el) sys1) H1)
    as (inst' & Hinst' & Hrel).
  exists inst'. split; [exact Hinst'|].
  destruct Hrel as [->| ->]; simpl; repeat split; reflexivity.
Qed.

(** X9: the activation of an instance that is already marked loaded does
    nothing: [skipIfExists] is not called, the document is not searched, the
    window and the caller's state are unchanged ([onLoad] is not invoked
    again) and the state of the instance is kept; the effect returns no
    cleanup. *)
Theorem loaded_instance_left_alone sys i o inst :
  instances sys !! i = Some inst ->
  loadedRef inst = true ->
  let sys' := useJSAPILoader i o sys in
  skipIfExists_returns i o sys = None /\
  finds i o sys = None /\
  window sys' = window sys /\
  client sys' = client sys /\
  (exists inst',
     instances sys' !! i = Some inst' /\ same_hook_state inst inst' /\
     cleanup inst' = false) /\
  (forall j, j <> i -> instances sys' !! j = instances sys !! j).
Proof.
  intros Hi Hl sys'. subst sys'.
  unfold skipIfExists_returns, finds, useJSAPILoader. rewrite Hi, Hl.
  split; [reflexivity|]. split; [reflexivity|]. split; [reflexivity|].
  split; [reflexivity|]. split.
  - eexists. split; [apply lookup_with_instance, Hi|].
    split; [|reflexivity]. repeat split; reflexivity.
  - intros j Hj. apply lookup_with_instance_ne. congruence.
Qed.

Lemma detach_detached (el : ScriptElement C) : in_document el = false -> detach el = el.
Proof. destruct el. simpl. by intros ->. Qed.

(** X10: the cleanup of an instance (before its effect runs again, and at
    unmount) removes from the document the script the instance holds in
    [scriptRef], when the last run of the effect returned the cleanup, and
    touches nothing else: every other element, the bridge, the console, the
    caller's state, the other instances and the loading state of the
    instance itself are as before. When the last run returned no cleanup
    the window is unchanged. *)
Theorem cleanup_detaches_own_script sys i inst :
  instances sys !! i = Some inst ->
  let sys' := step sys (Deactivate i) in
  client sys' = client sys /\
  gpContainer (window sys') = gpContainer (window sys) /\
  console (window sys') = console (window sys) /\
  (exists inst',
     instances sys' !! i = Some inst' /\ same_hook_state inst inst' /\
     (cleanup inst = true -> cleanup inst' = false)) /\
  (forall j, j <> i -> instances sys' !! j = instances sys !! j) /\
  (forall k, scriptRef inst <> Some k ->
     document (window sys') !! k = document (window sys) !! k) /\
  (forall k el, cleanup inst = true -> scriptRef inst = Some k ->
     document (window sys) !! k = Some el ->
     document (window sys') !! k = Some (detach el)) /\
  (cleanup inst = false -> window sys' = window sys).
Proof.
  intros Hi sys'. subst sys'. simpl. unfold run_cleanup. rewrite Hi.
  destruct (cleanup inst) eqn:Hc.
  - assert (Hshape : exists doc',
              effect_cleanup i sys =
                {| window := {| gpContainer := gpContainer (window sys);
                                document := doc';
                                console := console (window sys) |};
                   instances := instances sys; client := client sys |} /\
              (forall k, scriptRef inst <> Some k -> doc' !! k = document (window sys) !! k) /\
              (forall k el, scriptRef inst = Some k ->
                 document (window sys) !! k = Some el -> doc' !! k = Some (detach el))).
    { unfold effect_cleanup. rewrite Hi.
      assert (Hsame : sys =
                {| window := {| gpContainer := gpContainer (window sys);
                                document := document (window sys);
                                console := console (window sys) |};
                   instances := instances sys; client := client sys |})
        by (destruct sys as [[? ? ?] ? ?]; reflexivity).
      destruct (scriptRef inst) as [k0|] eqn:Hr.
      - destruct (document (window sys) !! k0) as [el0|] eqn:Hk0.
        + destruct (in_document el0) eqn:Hin.
          * exists (alter detach k0 (document (window sys))). split; [reflexivity|].
            split.
            -- intros k Hk. apply list_lookup_alter_ne. congruence.
            -- intros k el [= <-] Hel. rewrite list_lookup_alter_eq, Hel. reflexivity.
          * exists (document (window sys)). split; [exact Hsame|].
            split; [reflexivity|].
            intros k el [= <-] Hel. rewrite Hel. f_equal. symmetry.
            apply detach_detached. congruence.
        + exists (document (window sys)). split; [exact Hsame|].
          split; [reflexivity|]. intros k el [= <-] Hel. congruence.
      - exists (document (window sys)). split; [exact Hsame|].
        split; [reflexivity|]. discriminate. }
    destruct Hshape as (doc' & -> & Hother & Hown). simpl.
    split; [reflexivity|]. split; [reflexivity|]. split; [reflexivity|].
    split; [|split; [|split; [|split]]].
    + eexists. split; [by rewrite list_lookup_alter_eq, Hi|].
      split; [|reflexivity]. repeat split; reflexivity.
    + intros j Hj. apply list_lookup_alter_ne. congruence.
    + exact Hother.
    + intros k el _. apply Hown.
    + discriminate.
  - split; [reflexivity|]. split; [reflexivity|]. split; [reflexivity|].
    split; [|split; [|split; [|split]]]; try reflexivity.
    + exists inst. split; [exact Hi|]. split; [|discriminate]. repeat split; reflexivity.
    + discriminate.
Qed.

End LoaderMore.

Section LoaderInvariants.

Context {C : Type}.
Implicit Types (sys : System C) (inst : Instance) (o : JSAPILoaderOptions C)
  (doc : list (ScriptElement C)).

Lemma sdk_scripts_alter_le doc k (f : ScriptElement C -> ScriptElement C) :
  (forall el, matches (f el) -> matches el) ->
  sdk_scripts (alter f k doc) <= sdk_scripts doc.
Proof.
  intros Hf. unfold sdk_scripts. revert k.
  induction doc as [|el doc IH]; intros [|k]; simpl; try lia.
  - rewrite !filter_cons. pose proof (Hf el) as Hel.
    destruct (decide (matches (f el))), (decide (matches el)); simpl; try lia.
    tauto.
  - rewrite !filter_cons. specialize (IH k).
    change (list_alter f k doc) with (alter f k doc).
    destruct (decide (matches el)); simpl; lia.
Qed.

Lemma run_cleanup_sdk_scripts i sys :
  sdk_scripts (document (window (run_cleanup i sys))) <=
  sdk_scripts (document (window sys)).
Proof.
  unfold run_cleanup.
  destruct (instances sys !! i) as [inst|]; [|lia].
  destruct (cleanup inst); [|lia]. simpl. unfold effect_cleanup.
  destruct (instances sys !! i) as [inst'|]; [|lia].
  destruct (scriptRef inst') as [k|]; [|lia].
  destruct (document (window sys) !! k) as [el|]; [|lia].
  destruct (in_document el); [|lia]. simpl.
  apply sdk_scripts_alter_le. intros el' [Hin _]. discriminate Hin.
Qed.

Lemma useJSAPILoader_sdk_scripts i o sys :
  sdk_scripts (document (window (useJSAPILoader i o sys))) <=
  Nat.max 1 (sdk_scripts (document (window sys))).
Proof.
  destruct (querySelector (document (window sys))) as [[k el]|] eqn:Hq.
  - destruct (found_no_duplicate sys i o k el Hq) as [_ ->]. lia.
  - unfold useJSAPILoader.
    destruct (instances sys !! i) as [inst|]; [|lia].
    destruct (loadedRef inst); [simpl; lia|].
    destruct (skip_requested o (window sys)); [simpl; lia|].
    rewrite Hq. simpl. rewrite sdk_scripts_snoc by (split; reflexivity).
    rewrite (querySelector_none_inv _ Hq). lia.
Qed.

Lemma step_sdk_scripts sys (s : Step C) :
  sdk_scripts (document (window (step sys s))) <=
  Nat.max 1 (sdk_scripts (document (window sys))).
Proof.
  destruct s as [i o|i|k|k err|g]; simpl.
  - pose proof (run_cleanup_sdk_scripts i sys).
    pose proof (useJSAPILoader_sdk_scripts i o (run_cleanup i sys)). lia.
  - pose proof (run_cleanup_sdk_scripts i sys). lia.
  - unfold dispatch_load.
    destruct (document (window sys) !! k) as [el|]; [|lia].
    rewrite listeners_window.
    destruct (onload el) as [h|]; [|lia].
    unfold own_onload. simpl.
    rewrite sdk_scripts_alter by reflexivity. lia.
  - unfold dispatch_error.
    destruct (document (window sys) !! k) as [el|]; [|lia].
    destruct (onerror el) as [h|]; [|lia]. simpl. lia.
  - lia.
Qed.

(** X11: whatever happens (any number of instances, activations with any
    options, cleanups, load and error events), the loader never brings the
    number of script elements for the SDK URL in the document above one: a
    page that starts with at most one keeps at most one, and a page that
    starts with more never gets more than it had. *)
Theorem at_most_one_sdk_script sys (trace : list (Step C)) :
  sdk_scripts (document (window (run trace sys))) <=
  Nat.max 1 (sdk_scripts (document (window sys))).
Proof.
  revert sys. induction trace as [|s trace IH]; intros sys; simpl; [lia|].
  pose proof (step_sdk_scripts sys s). specialize (IH (step sys s)). lia.
Qed.

(** *** Invariants of the instances and of the page they found *)

Variable w : Window C.

Lemma page_kept_length doc : page_kept w doc -> length (document w) <= length doc.
Proof.
  intros Hkept. destruct (document w) as [|el0 doc0] eqn:Hw using rev_ind; [simpl; lia|].
  clear IHdoc0.
  destruct (Hkept (length doc0) el0) as (el' & Hel' & _).
  { by rewrite Hw, list_lookup_middle. }
  apply lookup_lt_Some in Hel'. rewrite length_app. simpl. lia.
Qed.

Lemma instance_ok_grow doc doc' inst :
  length doc <= length doc' -> instance_ok w doc inst -> instance_ok w doc' inst.
Proof.
  intros Hlen (H1 & H2 & H3 & H4). repeat split; try assumption.
  - by apply H4.
  - specialize (H4 _ H). lia.
Qed.

Lemma page_kept_alter doc k (f : ScriptElement C -> ScriptElement C) :
  (forall el, in_document (f el) = in_document el /\ src (f el) = src el) ->
  page_kept w doc -> page_kept w (alter f k doc).
Proof.
  intros Hf Hkept k0 el0 H0. destruct (Hkept k0 el0 H0) as (el' & Hel' & Hin & Hsrc).
  destruct (decide (k = k0)) as [->|Hne].
  - exists (f el'). rewrite list_lookup_alter_eq, Hel'. destruct (Hf el') as [-> ->]. auto.
  - exists el'. rewrite list_lookup_alter_ne by exact Hne. auto.
Qed.

Lemma page_kept_detach doc k :
  length (document w) <= k -> page_kept w doc -> page_kept w (alter detach k doc).
Proof.
  intros Hk Hkept k0 el0 H0. destruct (Hkept k0 el0 H0) as (el' & Hel' & Hin & Hsrc).
  exists el'. rewrite list_lookup_alter_ne; [auto|].
  apply lookup_lt_Some in H0. lia.
Qed.

Lemma page_kept_snoc doc el : page_kept w doc -> page_kept w (doc ++ [el]).
Proof.
  intros Hkept k0 el0 H0. destruct (Hkept k0 el0 H0) as (el' & Hel' & Hin & Hsrc).
  exists el'. split; [by apply lookup_app_l_Some | auto].
Qed.

Lemma inv_with_instance sys i (f : Instance -> Instance) :
  (forall inst, instance_ok w (document (window sys)) inst ->
                instance_ok w (document (window sys)) (f inst)) ->
  loader_inv w sys -> loader_inv w (with_instance i f sys).
Proof.
  intros Hf [Hinsts Hkept]. split; [|exact Hkept]. simpl.
  apply Forall_alter; [exact Hinsts | auto].
Qed.

Lemma inv_with_client sys (f : C -> C) :
  loader_inv w sys -> loader_inv w (with_client f sys).
Proof. exact (fun H => H). Qed.

Lemma inv_with_element sys k (f : ScriptElement C -> ScriptElement C) :
  (forall el, in_document (f el) = in_document el /\ src (f el) = src el) ->
  loader_inv w sys -> loader_inv w (with_element k f sys).
Proof.
  intros Hf [Hinsts Hkept]. split; simpl.
  - eapply Forall_impl; [exact Hinsts|]. intros inst.
    apply instance_ok_grow. by rewrite length_alter.
  - by apply page_kept_alter.
Qed.

Lemma instance_ok_mark_loaded doc inst :
  instance_ok w doc inst -> instance_ok w doc (mark_loaded inst).
Proof. intros (H1 & H2 & H3 & H4). repeat split; try assumption; by apply H4. Qed.

Lemma instance_ok_set_cleanup doc b inst :
  instance_ok w doc inst -> instance_ok w doc (set_cleanup b inst).
Proof. exact (fun H => H). Qed.

Lemma instance_ok_not_loading doc inst :
  instance_ok w doc inst -> instance_ok w doc (setIsLoading false inst).
Proof.
  intros (H1 & H2 & H3 & H4). repeat split; try assumption; try by apply H4.
  discriminate.
Qed.

Lemma instance_ok_setError doc inst :
  instance_ok w doc inst -> instance_ok w doc (setError errorMsg inst).
Proof.
  intros (H1 & H2 & H3 & H4). repeat split; try assumption; try by apply H4.
  by right.
Qed.

Lemma useJSAPILoader_inv i o sys :
  loader_inv w sys -> loader_inv w (useJSAPILoader i o sys).
Proof.
  intros Hinv. unfold useJSAPILoader.
  destruct (instances sys !! i) as [inst|] eqn:Hi; [|exact Hinv].
  destruct (loadedRef inst).
  { apply inv_with_instance; [|exact Hinv]. intros; by apply instance_ok_set_cleanup. }
  assert (Hmarked : loader_inv w
            (with_client (opt_call (onLoad o))
               (with_instance i (fun inst => set_cleanup false (mark_loaded inst)) sys))).
  { apply inv_with_client, inv_with_instance; [|exact Hinv].
    intros x Hx. by apply instance_ok_set_cleanup, instance_ok_mark_loaded. }
  destruct (skip_requested o (window sys)); [exact Hmarked|].
  destruct (querySelector _) as [[k el]|].
  - destruct (data_loaded el); [exact Hmarked|].
    apply inv_with_element; [intros; split; reflexivity|].
    apply inv_with_instance; [|exact Hinv]. intros; by apply instance_ok_set_cleanup.
  - destruct Hinv as [Hinsts Hkept]. split; simpl.
    + apply Forall_alter.
      * eapply Forall_impl; [exact Hinsts|]. intros x.
        apply instance_ok_grow. rewrite length_app. simpl. lia.
      * intros x _ (H1 & H2 & H3 & H4). repeat split; simpl; try assumption.
        -- intros _. eauto.
        -- injection H as <-. by apply page_kept_length.
        -- injection H as <-. rewrite length_app. simpl. lia.
    + by apply page_kept_snoc.
Qed.

Lemma run_cleanup_inv i sys : loader_inv w sys -> loader_inv w (run_cleanup i sys).
Proof.
  intros Hinv. unfold run_cleanup.
  destruct (instances sys !! i) as [inst|] eqn:Hi; [|exact Hinv].
  destruct (cleanup inst); [|exact Hinv].
  assert (Hclean : loader_inv w (effect_cleanup i sys)).
  { unfold effect_cleanup. rewrite Hi.
    destruct (scriptRef inst) as [k|] eqn:Hr; [|exact Hinv].
    destruct (document (window sys) !! k) as [el|]; [|exact Hinv].
    destruct (in_document el); [|exact Hinv].
    destruct Hinv as [Hinsts Hkept].
    assert (Hk : length (document w) <= k).
    { rewrite Forall_lookup in Hinsts.
      destruct (Hinsts _ _ Hi) as (_ & _ & _ & H4). specialize (H4 _ Hr). lia. }
    split; simpl.
    - eapply Forall_impl; [exact Hinsts|]. intros x.
      apply instance_ok_grow. by rewrite length_alter.
    - by apply page_kept_detach. }
  apply inv_with_instance; [|exact Hclean]. intros; by apply instance_ok_set_cleanup.
Qed.

Lemma reuse_listener_inv h sys : loader_inv w sys -> loader_inv w (reuse_listener h sys).
Proof.
  intros Hinv. unfold reuse_listener.
  apply inv_with_client, inv_with_instance; [|exact Hinv].
  intros; by apply instance_ok_mark_loaded.
Qed.

Lemma listeners_inv (hs : list (LoadHandler C)) sys :
  loader_inv w sys -> loader_inv w (fold_left (fun s h => reuse_listener h s) hs sys).
Proof.
  revert sys. induction hs as [|h hs IH]; intros sys Hinv; simpl; [exact Hinv|].
  by apply IH, reuse_listener_inv.
Qed.

Lemma step_inv sys (s : Step C) : loader_inv w sys -> loader_inv w (step sys s).
Proof.
  intros Hinv. destruct s as [i o|i|k|k err|g]; simpl.
  - by apply useJSAPILoader_inv, run_cleanup_inv.
  - by apply run_cleanup_inv.
  - unfold dispatch_load.
    destruct (document (window sys) !! k) as [el|]; [|exact Hinv].
    apply listeners_inv. destruct (onload el) as [h|]; [|exact Hinv].
    unfold own_onload. apply inv_with_client.
    set (sys1 := with_element k _ sys).
    assert (H1 : loader_inv w sys1).
    { apply inv_with_element; [intros; split; reflexivity | exact Hinv]. }
    apply inv_with_instance; [|exact H1].
    intros x Hx. by apply instance_ok_not_loading, instance_ok_mark_loaded.
  - unfold dispatch_error.
    destruct (document (window sys) !! k) as [el|]; [|exact Hinv].
    destruct (onerror el) as [h|]; [|exact Hinv].
    unfold own_onerror. cbv zeta.
    set (sys1 := with_instance (e_owner h) _ sys).
    assert (H1 : loader_inv w sys1).
    { apply inv_with_instance; [|exact Hinv].
      intros x Hx. by apply instance_ok_not_loading, instance_ok_setError. }
    exact H1.
  - exact Hinv.
Qed.

Lemma mount_inv n (c : C) : loader_inv w (mount w n c).
Proof.
  split; simpl.
  - apply Forall_replicate. repeat split; simpl; try discriminate. by left.
  - intros k el Hk. exists el. auto.
Qed.

Lemma run_inv (trace : list (Step C)) sys :
  loader_inv w sys -> loader_inv w (run trace sys).
Proof.
  revert sys. induction trace as [|s trace IH]; intros sys Hinv; simpl; [exact Hinv|].
  by apply IH, step_inv.
Qed.

End LoaderInvariants.

(** X12: on a page with any number of freshly mounted loader instances,
    whatever happens next, for every instance: the state [isLoaded] agrees
    with the latch [loadedRef] (so the guard of line 45 stops an activation
    exactly when the hook reports loaded); [error] is null or the
    load-failure message; an instance that reports loading has created a
    script; and [scriptRef], when set, refers to an element that exists and
    was appended after the page was found. The number of instances does not
    change. *)
Theorem loader_state_invariants {C : Type} (w : Window C) (n : nat) (c : C)
    (trace : list (Step C)) (i : nat) (inst : Instance) :
  instances (run trace (mount w n c)) !! i = Some inst ->
  i < n /\
  isLoaded inst = loadedRef inst /\
  (error inst = None \/ error inst = Some errorMsg) /\
  (isLoading inst = true -> is_Some (scriptRef inst)) /\
  (forall k, scriptRef inst = Some k ->
     length (document w) <= k < length (document (window (run trace (mount w n c))))).
Proof.
  intros Hi. split.
  - pose proof (run_history trace (mount w n c)) as H.
    apply Forall2_length in H. simpl in H. rewrite length_replicate in H.
    apply lookup_lt_Some in Hi. lia.
  - destruct (run_inv w trace _ (mount_inv w n c)) as [Hinsts _].
    rewrite Forall_lookup in Hinsts. exact (Hinsts _ _ Hi).
Qed.

(** X13: the loader never removes, re-attaches or re-sources a script
    element it did not create: whatever happens, every element the page held
    when the instances were mounted is still there, attached or detached as
    it was and with the same [src]. *)
Theorem page_scripts_kept {C : Type} (w : Window C) (n : nat) (c : C)
    (trace : list (Step C)) (k : nat) (el : ScriptElement C) :
  document w !! k = Some el ->
  exists el',
    document (window (run trace (mount w n c))) !! k = Some el' /\
    in_document el' = in_document el /\ src el' = src el.
Proof.
  intros Hk.
  destruct (run_inv w trace _ (mount_inv w n c)) as [_ Hkept].
  exact (Hkept k el Hk).
Qed.

(** ** Further properties of [useMiniapp] *)

Section MiniappMore.

Context {U : Type}.
Variable o : GopayMiniappOptions U.
Variable w : Window (Miniapp.State U).
Variable u : U.

Lemma skip_requested_miniapp (w' : Window (Miniapp.State U)) :
  skip_requested (loader_options o) w' =
  match gpContainer w' with Some _ => true | None => false end.
Proof. reflexivity. Qed.

(** X14: when [window.gpContainer] already exists as the component mounts,
    the first run of the effect makes the hook ready at once: [isReady] and
    the latch are true, [onReady] has been invoked once, the hook reports
    neither loading nor an error, and the window is untouched (no script
    element is created). *)
Theorem ready_at_mount_with_bridge (gp : GpContainer) :
  gpContainer w = Some gp ->
  let sys := step (useMiniapp w u) (Activate 0 (loader_options o)) in
  window sys = w /\
  miniapp_result sys =
    Some {| res_isReady := true; res_isLoading := false; res_error := None |} /\
  readyRef (client sys) = true /\
  user (client sys) = opt_call (onReady o) u.
Proof.
  intros Hgp sys. subst sys. simpl. unfold useJSAPILoader. simpl.
  rewrite skip_requested_miniapp, Hgp. repeat split; reflexivity.
Qed.

End MiniappMore.

(** X16: the load marker set by the instance that created the script serves
    the instances that come later. On a page without a script for the SDK
    URL, one instance is activated and creates the script, the script loads,
    and a second instance is activated: the second instance is loaded at
    once, without loading state and without a script of its own, its
    [onLoad] is invoked after the first one's, and the document still holds
    the one script element, now marked. *)
Theorem marker_serves_later_instance {C : Type} (w : Window C) (c : C)
    (o1 o2 : JSAPILoaderOptions C) :
  sdk_scripts (document w) = 0 ->
  skip_requested o1 w = false ->
  let k := length (document w) in
  let sys := run [Activate 0 o1; LoadEvent k; Activate 1 o2] (mount w 2 c) in
  client sys = opt_call (onLoad o2) (opt_call (onLoad o1) c) /\
  document (window sys) = document w ++ [set_data_loaded (new_script 0 o1)] /\
  sdk_scripts (document (window sys)) = 1 /\
  (exists inst,
     instances sys !! 1 = Some inst /\
     isLoaded inst = true /\ isLoading inst = false /\ scriptRef inst = None).
Proof.
  intros Hnone Hskip k sys.
  set (sys1 := step (mount w 2 c) (Activate 0 o1)).
  assert (Hsys1 : sys1 =
    with_document (fun doc => doc ++ [new_script 0 o1])
      (with_instance 0
         (fun inst => set_cleanup true (set_scriptRef k (setIsLoading true inst)))
         (mount w 2 c))).
  { subst sys1. simpl. unfold useJSAPILoader. simpl.
    rewrite Hskip, (querySelector_none _ Hnone). reflexivity. }
  assert (Hk : document (window sys1) !! k = Some (new_script 0 o1)).
  { rewrite Hsys1. simpl. apply list_lookup_middle. reflexivity. }
  set (sys2 := step sys1 (LoadEvent k)).
  assert (Hsys2 : sys2 = own_onload k {| owner := 0; captured_onLoad := onLoad o1 |} sys1).
  { subst sys2. simpl. unfold dispatch_load. rewrite Hk. reflexivity. }
  assert (Hdoc2 : document (window sys2) = document w ++ [set_data_loaded (new_script 0 o1)]).
  { rewrite Hsys2, Hsys1. simpl. subst k.
    rewrite alter_app_r_alt by lia. rewrite Nat.sub_diag. reflexivity. }
  assert (Hq : querySelector (document (window sys2)) =
               Some (k, set_data_loaded (new_script 0 o1))).
  { rewrite Hdoc2. apply querySelector_snoc; [|split; reflexivity].
    apply querySelector_none, Hnone. }
  assert (Hsys : sys =
    with_client (opt_call (onLoad o2))
      (with_instance 1 (fun inst => set_cleanup false (mark_loaded inst)) sys2)).
  { subst sys. change (run _ _) with (step sys2 (Activate 1 o2)). simpl.
    assert (Hclean : run_cleanup 1 sys2 = sys2) by (rewrite Hsys2, Hsys1; reflexivity).
    rewrite Hclean. unfold useJSAPILoader.
    assert (Hi : instances sys2 !! 1 = Some fresh) by (rewrite Hsys2, Hsys1; reflexivity).
    rewrite Hi. simpl. rewrite Hq. simpl.
    by destruct (skip_requested o2 (window sys2)). }
  rewrite Hsys. split; [by rewrite Hsys2, Hsys1|].
  split; [exact Hdoc2|]. split.
  - change (document (window (with_client ?f (with_instance ?i ?g sys2))))
      with (document (window sys2)).
    rewrite Hdoc2, sdk_scripts_snoc, Hnone; [reflexivity | split; reflexivity].
  - eexists. split; [by rewrite Hsys2, Hsys1|]. repeat split; reflexivity.
Qed.

(** ** The further properties at concrete inputs *)

Lemma outcomes_come_from_bridge_witness :
  let w := blank_page (C:=unit) (Some (answering (FailureChannel errorResponse))) in
  let r := call no_options w "TestClass" "testMethod" None None in
  In (Reject errorResponse) (sync_settlements r ++ async_settlements r) /\
  ((gpContainer w = None /\ errorResponse = SDK_NOT_LOADED) \/
   exists gp, gpContainer w = Some gp /\
     ((exists err,
         thrown (bridge_run no_options "TestClass" "testMethod" None None gp) = Some err /\
         errorResponse = CALL_EXCEPTION err) \/
      In (FailureChannel errorResponse)
         (during (bridge_run no_options "TestClass" "testMethod" None None gp) ++
          later (bridge_run no_options "TestClass" "testMethod" None None gp)) \/
      In (SuccessChannel (ErrorResponse errorResponse))
         (during (bridge_run no_options "TestClass" "testMethod" None None gp) ++
          later (bridge_run no_options "TestClass" "testMethod" None None gp)))).
Proof.
  intros w r.
  assert (Hin : In (Reject errorResponse) (sync_settlements r ++ async_settlements r))
    by (left; reflexivity).
  split; [exact Hin|].
  exact (outcomes_come_from_bridge no_options w "TestClass" "testMethod" None None
           (Reject errorResponse) Hin).
Defined.

Lemma promise_pending_iff_bridge_silent_witness :
  promise_finally
    (call no_options (blank_page (C:=unit) (Some silent)) "TestClass" "testMethod" None None)
  = Pending.
Proof.
  pose proof (promise_pending_iff_bridge_silent no_options
                (blank_page (C:=unit) (Some silent)) "TestClass" "testMethod" None None) as H.
  cbv zeta in H. destruct H as [[_ H] _]. apply H.
  exists silent. repeat split; reflexivity.
Defined.

Lemma bridge_receives_defaults_witness :
  bridge_calls
    (call no_options (blank_page (C:=unit) (Some silent)) "TestClass" "testMethod" None None)
  = [{| className := "TestClass"; methodName := "testMethod";
        params := ∅; timeout := 300000 |}].
Proof.
  pose proof (bridge_receives_defaults no_options (blank_page (C:=unit) (Some silent))
                silent "TestClass" "testMethod" None None eq_refl) as H.
  cbv zeta in H. exact (proj1 H).
Defined.

Lemma helpers_before_bridge_witness :
  promise_on_return
    (string_helper LaunchUri no_options (blank_page (C:=unit) None) "https://example.com")
  = Rejected SDK_NOT_LOADED.
Proof.
  pose proof (helpers_before_bridge no_options (blank_page (C:=unit) None)
                LaunchUri Vibrate "https://example.com" None eq_refl) as H.
  cbv zeta in H. destruct H as (_ & _ & H & _). exact H.
Defined.

Lemma helpers_address_own_method_witness :
  bridge_calls (params_helper Vibrate no_options (blank_page (C:=unit) (Some silent)) None)
  = [{| className := "GPDevice"; methodName := "vibrate";
        params := ∅; timeout := 300000 |}].
Proof.
  pose proof (helpers_address_own_method no_options (blank_page (C:=unit) (Some silent))
                silent LaunchUri Vibrate "https://example.com" None eq_refl) as H.
  destruct H as (_ & H & _). exact H.
Defined.

Lemma script_created_when_missing_witness :
  let sys := mount (blank_page None) 1 0 in
  sdk_scripts (document (window (useJSAPILoader 0 (counting_options None) sys))) = 1 /\
  client (useJSAPILoader 0 (counting_options None) sys) = 0.
Proof.
  intros sys.
  pose proof (script_created_when_missing sys 0 (counting_options None) fresh
                eq_refl eq_refl eq_refl eq_refl) as H.
  cbv zeta in H. destruct H as (_ & _ & _ & Hc & _ & Hsdk).
  split; [exact Hsdk | exact Hc].
Defined.

Lemma script_load_handled_witness :
  let o := counting_options None in
  let sys := step (mount (blank_page None) 1 0) (Activate 0 o) in
  client (step sys (LoadEvent 0)) = 1 /\
  document (window (step sys (LoadEvent 0))) = [set_data_loaded (new_script 0 o)].
Proof.
  intros o sys.
  pose proof (script_load_handled sys 0 (new_script 0 o)
                {| owner := 0; captured_onLoad := onLoad o |} _
                eq_refl eq_refl eq_refl) as H.
  cbv zeta in H. destruct H as (Hdoc & _ & _ & Hc & _).
  split; [exact Hc | exact Hdoc].
Defined.

Lemma loaded_instance_left_alone_witness :
  let o := counting_options (Some (fun _ => true)) in
  let sys := step (mount (blank_page None) 1 0) (Activate 0 o) in
  client sys = 1 /\ client (useJSAPILoader 0 o sys) = 1.
Proof.
  intros o sys. split; [reflexivity|].
  pose proof (loaded_instance_left_alone sys 0 o _ eq_refl eq_refl) as H.
  cbv zeta in H. destruct H as (_ & _ & _ & Hc & _). exact Hc.
Defined.

Lemma cleanup_detaches_own_script_witness :
  let o := counting_options None in
  let sys := step (mount (blank_page None) 1 0) (Activate 0 o) in
  document (window (step sys (Deactivate 0))) !! 0 = Some (detach (new_script 0 o)).
Proof.
  intros o sys.
  pose proof (cleanup_detaches_own_script sys 0 _ eq_refl) as H.
  cbv zeta in H. destruct H as (_ & _ & _ & _ & _ & _ & H & _).
  exact (H 0 (new_script 0 o) eq_refl eq_refl eq_refl).
Defined.

Lemma loader_state_invariants_witness :
  let trace := [Activate 0 (counting_options None); LoadEvent 0] in
  exists inst,
    instances (run trace (mount (blank_page None) 1 0)) !! 0 = Some inst /\
    isLoaded inst = loadedRef inst.
Proof.
  intros trace. eexists. split; [reflexivity|].
  exact (proj1 (proj2 (loader_state_invariants (blank_page None) 1 0 trace 0 _ eq_refl))).
Defined.

Lemma page_scripts_kept_witness :
  let trace := [Activate 0 (counting_options None); LoadEvent 0; Deactivate 0] in
  exists el',
    document (window (run trace (mount page_with_sdk_script 1 0))) !! 0 = Some el' /\
    in_document el' = true /\ src el' = GOPAY_SDK_URL.
Proof.
  intros trace.
  exact (page_scripts_kept page_with_sdk_script 1 0 trace 0 sdk_script_tag eq_refl).
Defined.

Lemma ready_at_mount_with_bridge_witness :
  let sys := step (useMiniapp (blank_page (Some silent)) [])
                  (Activate 0 (loader_options (spy_options None))) in
  document (window sys) = [] /\ user (client sys) = [OnReadyCalled].
Proof.
  intros sys.
  pose proof (ready_at_mount_with_bridge (spy_options None) (blank_page (Some silent)) []
                silent eq_refl) as H.
  cbv zeta in H. destruct H as (Hw & _ & _ & Hu).
  split; [|exact Hu]. fold sys in Hw. rewrite Hw. reflexivity.
Defined.

Lemma marker_serves_later_instance_witness :
  let o := counting_options None in
  client (run [Activate 0 o; LoadEvent 0; Activate 1 o] (mount (blank_page None) 2 0)) = 2.
Proof.
  intros o.
  pose proof (marker_serves_later_instance (blank_page None) 0 o o eq_refl eq_refl) as H.
  cbv zeta in H. exact (proj1 H).
Defined.

(** ** Runs of the effect after the first *)

Section Reruns.

Context {C : Type}.
Variable w : Window C.
Variable c : C.
Variables o1 o2 : JSAPILoaderOptions C.

Lemma querySelector_alter (doc : list (ScriptElement C)) k el
    (f : ScriptElement C -> ScriptElement C) :
  (forall x, matches (f x) <-> matches x) ->
  querySelector doc = Some (k, el) ->
  querySelector (alter f k doc) = Some (k, f el).
Proof.
  unfold querySelector. intros Hf Hq.
  apply list_find_Some in Hq as (Hk & Hm & Hfirst).
  apply list_find_Some. split; [by rewrite list_lookup_alter_eq, Hk|].
  split; [by apply Hf|].
  intros j y Hj Hlt. rewrite list_lookup_alter_ne in Hj by lia. eauto.
Qed.

(** X17: once the script an instance created has loaded, the next run of
    its effect (a dependency changed) removes the script element from the
    document and creates none: the document holds no script for the SDK URL
    any more, while the instance stays loaded; [onLoad] of the new render is
    not invoked. *)
Theorem rerun_after_load_removes_script :
  sdk_scripts (document w) = 0 ->
  skip_requested o1 w = false ->
  let k := length (document w) in
  let sys := run [Activate 0 o1; LoadEvent k; Activate 0 o2] (mount w 1 c) in
  document (window sys) = document w ++ [detach (set_data_loaded (new_script 0 o1))] /\
  sdk_scripts (document (window sys)) = 0 /\
  client sys = opt_call (onLoad o1) c /\
  (exists inst,
     instances sys !! 0 = Some inst /\
     isLoaded inst = true /\ isLoading inst = false /\
     scriptRef inst = Some k /\ cleanup inst = false).
Proof.
  intros Hnone Hskip k sys.
  set (sys1 := step (mount w 1 c) (Activate 0 o1)).
  assert (Hsys1 : sys1 =
    with_document (fun doc => doc ++ [new_script 0 o1])
      (with_instance 0
         (fun inst => set_cleanup true (set_scriptRef k (setIsLoading true inst)))
         (mount w 1 c))).
  { subst sys1. simpl. unfold useJSAPILoader. simpl.
    rewrite Hskip, (querySelector_none _ Hnone). reflexivity. }
  assert (Hk : document (window sys1) !! k = Some (new_script 0 o1)).
  { rewrite Hsys1. simpl. apply list_lookup_middle. reflexivity. }
  set (sys2 := step sys1 (LoadEvent k)).
  assert (Hsys2 : sys2 = own_onload k {| owner := 0; captured_onLoad := onLoad o1 |} sys1).
  { subst sys2. simpl. unfold dispatch_load. rewrite Hk. reflexivity. }
  assert (Hdoc2 : document (window sys2) = document w ++ [set_data_loaded (new_script 0 o1)]).
  { rewrite Hsys2, Hsys1. simpl. subst k.
    rewrite alter_app_r_alt by lia. rewrite Nat.sub_diag. reflexivity. }
  assert (Hi2 : instances sys2 !! 0 =
                Some (setIsLoading false (mark_loaded
                        (set_cleanup true (set_scriptRef k (setIsLoading true fresh))))))
    by (rewrite Hsys2, Hsys1; reflexivity).
  assert (Hclean : run_cleanup 0 sys2 =
                   with_instance 0 (set_cleanup false) (with_element k detach sys2)).
  { unfold run_cleanup, effect_cleanup. rewrite Hi2. simpl.
    rewrite Hdoc2. subst k. rewrite list_lookup_middle by reflexivity. reflexivity. }
  assert (Hsys : sys = with_instance 0 (set_cleanup false) (run_cleanup 0 sys2)).
  { subst sys. change (run _ _) with (step sys2 (Activate 0 o2)). simpl.
    unfold useJSAPILoader. rewrite Hclean. simpl.
    rewrite list_lookup_alter_eq, Hi2. reflexivity. }
  assert (Hdoc : document (window sys) =
                 document w ++ [detach (set_data_loaded (new_script 0 o1))]).
  { rewrite Hsys, Hclean. simpl. rewrite Hdoc2. subst k.
    rewrite alter_app_r_alt by lia. rewrite Nat.sub_diag. reflexivity. }
  split; [exact Hdoc|]. split; [|split].
  - rewrite Hdoc. unfold sdk_scripts. rewrite filter_app, length_app.
    fold (sdk_scripts (document w)). rewrite Hnone.
    rewrite filter_cons_False; [reflexivity|]. intros [Hin _]. discriminate Hin.
  - rewrite Hsys, Hclean, Hsys2, Hsys1. reflexivity.
  - eexists. split.
    + rewrite Hsys, Hclean. simpl. rewrite !list_lookup_alter_eq, Hi2. reflexivity.
    + repeat split; reflexivity.
Qed.

(** X18: when the effect of an instance runs again before its script has
    loaded (a dependency changed, or the effect is run twice at mount), the
    script element it created is removed from the document and a new one
    is created with the new options: the document holds exactly one script
    for the SDK URL, the newer one, and the instance is still loading and
    holds the newer one. No callback is invoked. *)
Theorem rerun_while_loading_replaces_script :
  sdk_scripts (document w) = 0 ->
  skip_requested o1 w = false ->
  skip_requested o2
    {| gpContainer := gpContainer w;
       document := document w ++ [detach (new_script 0 o1)];
       console := console w |} = false ->
  let k := length (document w) in
  let sys := run [Activate 0 o1; Activate 0 o2] (mount w 1 c) in
  document (window sys) = document w ++ [detach (new_script 0 o1); new_script 0 o2] /\
  sdk_scripts (document (window sys)) = 1 /\
  client sys = c /\
  (exists inst,
     instances sys !! 0 = Some inst /\
     isLoading inst = true /\ isLoaded inst = false /\
     scriptRef inst = Some (S k) /\ cleanup inst = true).
Proof.
  intros Hnone Hskip1 Hskip2 k sys.
  set (sys1 := step (mount w 1 c) (Activate 0 o1)).
  assert (Hsys1 : sys1 =
    with_document (fun doc => doc ++ [new_script 0 o1])
      (with_instance 0
         (fun inst => set_cleanup true (set_scriptRef k (setIsLoading true inst)))
         (mount w 1 c))).
  { subst sys1. simpl. unfold useJSAPILoader. simpl.
    rewrite Hskip1, (querySelector_none _ Hnone). reflexivity. }
  set (doc2 := document w ++ [detach (new_script 0 o1)]) in *.
  assert (Hclean : run_cleanup 0 sys1 =
    {| window := {| gpContainer := gpContainer w; document := doc2; console := console w |};
       instances := [set_cleanup false
                       (set_cleanup true (set_scriptRef k (setIsLoading true fresh)))];
       client := c |}).
  { rewrite Hsys1. unfold run_cleanup, effect_cleanup. simpl.
    subst k. rewrite list_lookup_middle by reflexivity. simpl.
    unfold with_instance, with_element, with_document. simpl.
    rewrite alter_app_r_alt by lia. rewrite Nat.sub_diag. reflexivity. }
  assert (Hnone2 : querySelector doc2 = None).
  { unfold querySelector, doc2. rewrite list_find_app_r by (apply querySelector_none, Hnone).
    simpl. destruct (decide (matches (detach (new_script 0 o1)))) as [[Hin _]|]; [|reflexivity].
    discriminate Hin. }
  assert (Hlen2 : length doc2 = S k).
  { unfold doc2. rewrite length_app. simpl. subst k. lia. }
  assert (Hsys : sys =
    {| window := {| gpContainer := gpContainer w;
                    document := doc2 ++ [new_script 0 o2];
                    console := console w |};
       instances := [set_cleanup true (set_scriptRef (S k) (setIsLoading true
                       (set_cleanup false
                          (set_cleanup true (set_scriptRef k (setIsLoading true fresh))))))];
       client := c |}).
  { subst sys. change (run _ _) with (step sys1 (Activate 0 o2)). simpl.
    rewrite Hclean. unfold useJSAPILoader. simpl.
    rewrite Hskip2, Hnone2. unfold with_document, with_instance. simpl.
    rewrite Hlen2. reflexivity. }
  rewrite Hsys. simpl. split; [|split; [|split]].
  - unfold doc2. by rewrite <- app_assoc.
  - rewrite sdk_scripts_snoc by (split; reflexivity). f_equal.
    by apply querySelector_none_inv.
  - reflexivity.
  - eexists. split; [reflexivity|]. repeat split; reflexivity.
Qed.

(** X19: the listeners an instance attaches to a script it found are never
    removed. When the effect of the instance runs twice while the script it
    found (put in the page by someone else, not yet marked) is still
    loading, two listeners are attached, and the one load event of the
    element invokes [onLoad] twice: the one of the first render, then the
    one of the second. *)
Theorem listeners_accumulate (k : nat) (el : ScriptElement C) :
  querySelector (document w) = Some (k, el) ->
  data_loaded el = false ->
  foreign el ->
  skip_requested o1 w = false ->
  skip_requested o2
    {| gpContainer := gpContainer w;
       document := alter (add_load_listener {| owner := 0; captured_onLoad := onLoad o1 |})
                     k (document w);
       console := console w |} = false ->
  let sys := run [Activate 0 o1; Activate 0 o2] (mount w 1 c) in
  (load_listeners <$> document (window sys) !! k) =
    Some [{| owner := 0; captured_onLoad := onLoad o1 |};
          {| owner := 0; captured_onLoad := onLoad o2 |}] /\
  client sys = c /\
  client (step sys (LoadEvent k)) = opt_call (onLoad o2) (opt_call (onLoad o1) c) /\
  (exists inst,
     instances (step sys (LoadEvent k)) !! 0 = Some inst /\ isLoaded inst = true).
Proof.
  intros Hq Hd (Hon & Herr & Hls) Hskip1 Hskip2 sys.
  set (h1 := {| owner := 0; captured_onLoad := onLoad o1 |}) in *.
  set (h2 := {| owner := 0; captured_onLoad := onLoad o2 |}).
  set (doc1 := alter (add_load_listener h1) k (document w)) in *.
  assert (Hsys1 : step (mount w 1 c) (Activate 0 o1) =
    {| window := {| gpContainer := gpContainer w; document := doc1; console := console w |};
       instances := [set_cleanup false fresh]; client := c |}).
  { simpl. unfold useJSAPILoader. simpl. rewrite Hskip1, Hq, Hd. reflexivity. }
  assert (Hq1 : querySelector doc1 = Some (k, add_load_listener h1 el)).
  { apply querySelector_alter; [|exact Hq]. intros; apply matches_add_load_listener. }
  assert (Hsys : sys =
    {| window := {| gpContainer := gpContainer w;
                    document := alter (add_load_listener h2) k doc1;
                    console := console w |};
       instances := [set_cleanup false (set_cleanup false fresh)]; client := c |}).
  { subst sys. change (run _ _) with (step (step (mount w 1 c) (Activate 0 o1)) (Activate 0 o2)).
    rewrite Hsys1. simpl. unfold useJSAPILoader. simpl.
    rewrite Hskip2, Hq1. simpl. rewrite Hd. reflexivity. }
  apply list_find_Some in Hq as (Hk & _ & _).
  assert (Hel : alter (add_load_listener h2) k doc1 !! k =
                Some (add_load_listener h2 (add_load_listener h1 el))).
  { unfold doc1. by rewrite !list_lookup_alter_eq, Hk. }
  rewrite Hsys. simpl. split; [|split; [reflexivity|]].
  - rewrite Hel. simpl. by rewrite Hls.
  - unfold dispatch_load. simpl. rewrite Hel. simpl. rewrite Hon, Hls. simpl.
    split; [reflexivity|]. eexists. split; reflexivity.
Qed.

End Reruns.

Lemma rerun_after_load_removes_script_witness :
  let o := counting_options None in
  let sys := run [Activate 0 o; LoadEvent 0; Activate 0 o] (mount (blank_page None) 1 0) in
  sdk_scripts (document (window sys)) = 0 /\ client sys = 1.
Proof.
  intros o sys.
  pose proof (rerun_after_load_removes_script (blank_page None) 0 o o eq_refl eq_refl) as H.
  cbv zeta in H. destruct H as (_ & Hsdk & Hc & _). split; [exact Hsdk | exact Hc].
Defined.

Lemma rerun_while_loading_replaces_script_witness :
  let o := counting_options None in
  let sys := run [Activate 0 o; Activate 0 o] (mount (blank_page None) 1 0) in
  document (window sys) = [detach (new_script 0 o); new_script 0 o] /\
  sdk_scripts (document (window sys)) = 1.
Proof.
  intros o sys.
  pose proof (rerun_while_loading_replaces_script (blank_page None) 0 o o
                eq_refl eq_refl eq_refl) as H.
  cbv zeta in H. destruct H as (Hdoc & Hsdk & _). split; [exact Hdoc | exact Hsdk].
Defined.

Lemma listeners_accumulate_witness :
  let o := counting_options None in
  let sys := run [Activate 0 o; Activate 0 o] (mount page_with_sdk_script 1 0) in
  client (step sys (LoadEvent 0)) = 2.
Proof.
  intros o sys.
  assert (Hforeign : foreign (sdk_script_tag (C:=nat))) by (repeat split; reflexivity).
  pose proof (listeners_accumulate page_with_sdk_script 0 o o 0 sdk_script_tag
                eq_refl eq_refl Hforeign eq_refl eq_refl) as H.
  cbv zeta in H. destruct H as (_ & _ & Hc & _). exact Hc.
Defined.

(** ** When the readiness flag is set *)

Section ReadinessSet.

Variable t : option Z.
Abbreviation o := (spy_options t).
Abbreviation MState := (Miniapp.State (list UserCall)).
Implicit Types (sys : System MState) (m : MState).

Lemma rwl_ready sys : isReady (client sys) = true -> ready_when_loaded sys.
Proof. intros H inst _ _. exact H. Qed.

Lemma rwl_with_instance sys i (f : Instance -> Instance) :
  (forall inst, isLoaded (f inst) = isLoaded inst /\ loadedRef (f inst) = loadedRef inst) ->
  ready_when_loaded sys -> ready_when_loaded (with_instance i f sys).
Proof.
  intros Hf H inst Hi Hl. simpl in *.
  destruct (decide (i = 0)) as [->|Hne].
  - rewrite list_lookup_alter_eq in Hi.
    destruct (instances sys !! 0) as [x|] eqn:Hx; [|discriminate].
    injection Hi as <-. destruct (Hf x) as [H1 H2]. rewrite H1, H2 in Hl.
    exact (H x Hx Hl).
  - rewrite list_lookup_alter_ne in Hi by exact Hne. exact (H inst Hi Hl).
Qed.

Lemma rwl_with_document sys f :
  ready_when_loaded sys -> ready_when_loaded (with_document f sys).
Proof. exact (fun H => H). Qed.

Lemma onLoad_sets_ready m : client_ok m -> isReady (miniapp_onLoad o m) = true.
Proof. intros H. by destruct (miniapp_onLoad_ok t m H) as (_ & Hr & _). Qed.

Lemma reuse_listener_ready sys h :
  handler_ok o h -> ready_inv o sys -> isReady (client (reuse_listener h sys)) = true.
Proof.
  intros [_ Hcb] (_ & Hc & _). unfold reuse_listener. rewrite Hcb. simpl.
  by apply onLoad_sets_ready.
Qed.

Lemma own_onload_ready sys k h :
  handler_ok o h -> ready_inv o sys -> isReady (client (own_onload k h sys)) = true.
Proof.
  intros [_ Hcb] (_ & Hc & _). unfold own_onload. rewrite Hcb. simpl.
  by apply onLoad_sets_ready.
Qed.

Lemma marked_ready sys i (f : Instance -> Instance) :
  ready_inv o sys ->
  isReady (client (with_client (opt_call (onLoad (loader_options o)))
                     (with_instance i f sys))) = true.
Proof. intros (_ & Hc & _). simpl. by apply onLoad_sets_ready. Qed.

Lemma listeners_ready (hs : list (LoadHandler MState)) sys :
  Forall (handler_ok o) hs ->
  ready_inv o sys ->
  hs <> [] \/ isReady (client sys) = true ->
  isReady (client (fold_left (fun s h => reuse_listener h s) hs sys)) = true.
Proof.
  intros Hhs. revert sys. induction Hhs as [|h hs Hh _ IH]; intros sys Hinv Hor; simpl.
  - destruct Hor as [Hne|Hr]; [congruence | exact Hr].
  - apply IH.
    + apply (reuse_listener_advance t sys h Hh Hinv).
    + right. by apply reuse_listener_ready.
Qed.

Lemma run_cleanup_window_bridge i sys :
  gpContainer (window (run_cleanup i sys)) = gpContainer (window sys).
Proof.
  unfold run_cleanup.
  destruct (instances sys !! i) as [inst|]; [|reflexivity].
  destruct (cleanup inst); [|reflexivity]. simpl. unfold effect_cleanup.
  destruct (instances sys !! i) as [inst'|]; [|reflexivity].
  destruct (scriptRef inst') as [k|]; [|reflexivity].
  destruct (document (window sys) !! k) as [el|]; [|reflexivity].
  by destruct (in_document el).
Qed.

Lemma run_cleanup_rwl i sys :
  ready_when_loaded sys -> ready_when_loaded (run_cleanup i sys).
Proof.
  intros H. unfold run_cleanup.
  destruct (instances sys !! i) as [inst|]; [|exact H].
  destruct (cleanup inst); [|exact H].
  apply rwl_with_instance; [intros; split; reflexivity|].
  unfold effect_cleanup.
  destruct (instances sys !! i) as [inst'|]; [|exact H].
  destruct (scriptRef inst') as [k|]; [|exact H].
  destruct (document (window sys) !! k) as [el|]; [|exact H].
  destruct (in_document el); [|exact H].
  by apply rwl_with_document.
Qed.

Lemma useJSAPILoader_rwl i sys :
  ready_inv o sys -> ready_when_loaded sys ->
  ready_when_loaded (useJSAPILoader i (loader_options o) sys).
Proof.
  intros Hinv H. unfold useJSAPILoader.
  destruct (instances sys !! i) as [inst|] eqn:Hi; [|exact H].
  destruct (loadedRef inst).
  { apply rwl_with_instance; [intros; split; reflexivity | exact H]. }
  destruct (skip_requested _ _); [by apply rwl_ready, marked_ready|].
  destruct (querySelector _) as [[k el]|].
  - destruct (data_loaded el); [by apply rwl_ready, marked_ready|].
    apply rwl_with_document, rwl_with_instance; [intros; split; reflexivity | exact H].
  - apply rwl_with_document, rwl_with_instance; [intros; split; reflexivity | exact H].
Qed.

Lemma element_handlers sys k el :
  ready_inv o sys -> document (window sys) !! k = Some el -> element_ok o el.
Proof.
  intros (_ & _ & _ & Hd) Hk. rewrite Forall_lookup in Hd. exact (Hd _ _ Hk).
Qed.

Lemma dispatch_load_ready sys k el :
  ready_inv o sys ->
  document (window sys) !! k = Some el ->
  is_Some (onload el) \/ load_listeners el <> [] ->
  isReady (client (dispatch_load k sys)) = true.
Proof.
  intros Hinv Hk Hsome. unfold dispatch_load. rewrite Hk.
  destruct (element_handlers sys k el Hinv Hk) as (Hon & Hls & _).
  destruct (onload el) as [h|] eqn:Hh.
  - apply listeners_ready; [exact Hls| |].
    + apply (own_onload_advance t sys k h (Hon h eq_refl) Hinv).
    + right. apply own_onload_ready; [by apply Hon | exact Hinv].
  - apply listeners_ready; [exact Hls | exact Hinv |].
    destruct Hsome as [[h Hcontra]|Hne]; [discriminate | by left].
Qed.

Lemma step_rwl sys (s : Step MState) :
  miniapp_step o s -> ready_inv o sys -> ready_when_loaded sys ->
  ready_when_loaded (step sys s).
Proof.
  intros Hs Hinv H. destruct s as [i o'|i|k|k err|g]; simpl in *.
  - subst o'. apply useJSAPILoader_rwl; [|by apply run_cleanup_rwl].
    apply (run_cleanup_advance t sys i Hinv).
  - by apply run_cleanup_rwl.
  - destruct (document (window sys) !! k) as [el|] eqn:Hk;
      [|unfold dispatch_load; by rewrite Hk].
    destruct (onload el) as [h|] eqn:Hh.
    + apply rwl_ready, (dispatch_load_ready sys k el Hinv Hk). left. by rewrite Hh.
    + destruct (load_listeners el) as [|h hs] eqn:Hls.
      * unfold dispatch_load. by rewrite Hk, Hh, Hls.
      * apply rwl_ready, (dispatch_load_ready sys k el Hinv Hk). right. by rewrite Hls.
  - unfold dispatch_error.
    destruct (document (window sys) !! k) as [el|] eqn:Hk; [|exact H].
    destruct (element_handlers sys k el Hinv Hk) as (_ & _ & Herr).
    destruct (onerror el) as [h|]; [|exact H].
    destruct (Herr h eq_refl) as [_ Hcb]. unfold own_onerror. rewrite Hcb. cbv zeta.
    set (f := fun inst => setIsLoading false (setError errorMsg inst)).
    pose proof (rwl_with_instance sys (e_owner h) f
                  (fun inst => conj eq_refl eq_refl) H) as H1.
    intros inst Hi Hl. exact (H1 inst Hi Hl).
  - exact H.
Qed.

Lemma run_rwl (trace : list (Step MState)) sys :
  Forall (miniapp_step o) trace -> ready_inv o sys -> ready_when_loaded sys ->
  ready_when_loaded (run trace sys).
Proof.
  intros Htrace. revert sys.
  induction Htrace as [|s trace Hs _ IH]; intros sys Hinv H; simpl; [exact H|].
  apply IH; [apply (step_advance t sys s Hs Hinv) | by apply step_rwl].
Qed.

Lemma activate_with_bridge_ready sys :
  ready_inv o sys -> ready_when_loaded sys ->
  is_Some (gpContainer (window sys)) ->
  isReady (client (step sys (Activate 0 (loader_options o)))) = true.
Proof.
  intros Hinv H [gp Hgp]. simpl.
  pose proof (run_cleanup_advance t sys 0 Hinv) as [Hinv1 _].
  pose proof (run_cleanup_rwl 0 sys H) as H1.
  pose proof (run_cleanup_window_bridge 0 sys) as Hb. rewrite Hgp in Hb.
  set (sys1 := run_cleanup 0 sys) in *.
  destruct (instances sys1 !! 0) as [inst|] eqn:Hi.
  - unfold useJSAPILoader. rewrite Hi.
    destruct (loadedRef inst) eqn:Hl.
    + simpl. apply (H1 inst Hi). by right.
    + unfold skip_requested. simpl. rewrite Hb. by apply marked_ready.
  - destruct Hinv1 as (Hlen & _). apply lookup_ge_None in Hi. lia.
Qed.

Lemma activate_with_marker_ready sys k el :
  ready_inv o sys ->
  finds 0 (loader_options o) (run_cleanup 0 sys) = Some (k, el) ->
  data_loaded el = true ->
  isReady (client (step sys (Activate 0 (loader_options o)))) = true.
Proof.
  intros Hinv Hfinds Hd. simpl.
  pose proof (run_cleanup_advance t sys 0 Hinv) as [Hinv1 _].
  set (sys1 := run_cleanup 0 sys) in *.
  unfold finds in Hfinds. unfold useJSAPILoader.
  destruct (instances sys1 !! 0) as [inst|]; [|discriminate].
  destruct (loadedRef inst); [discriminate|].
  destruct (skip_requested _ _); [discriminate|].
  rewrite Hfinds, Hd. by apply marked_ready.
Qed.

End ReadinessSet.

(** C7 as amended. On a page whose scripts were not created by a loader, a
    component uses [useMiniapp] (the caller's callbacks are spies); whatever
    has happened since (runs and cleanups of the effect, load and error
    events on any element, the bridge appearing or disappearing):
    - the hook is ready exactly when its loader reports loaded;
    - a run of the effect while [window.gpContainer] exists leaves the hook
      ready; so does a run that finds a script for the URL carrying the
      load marker, and so does the load event of an element that carries a
      handler of the loader, whether or not [window.gpContainer] exists;
    - the latch [readyRef] agrees with [isReady], and once [isReady] is
      true it stays true;
    - [onReady] has been invoked at most once, and exactly once if and only
      if the hook is ready. *)
Theorem readiness_latch (t : option Z)
    (w : Window (Miniapp.State (list UserCall)))
    (trace : list (Step (Miniapp.State (list UserCall)))) :
  Forall foreign (document w) ->
  Forall (miniapp_step (spy_options t)) trace ->
  let o := spy_options t in
  let sys := run trace (useMiniapp w []) in
  (isReady (client sys) = true <->
   exists inst, instances sys !! 0 = Some inst /\
     isLoaded inst = true /\ loadedRef inst = true) /\
  (is_Some (gpContainer (window sys)) ->
   isReady (client (step sys (Activate 0 (loader_options o)))) = true) /\
  (forall k el,
     finds 0 (loader_options o) (run_cleanup 0 sys) = Some (k, el) ->
     data_loaded el = true ->
     isReady (client (step sys (Activate 0 (loader_options o)))) = true) /\
  (forall k el,
     document (window sys) !! k = Some el ->
     is_Some (onload el) \/ load_listeners el <> [] ->
     isReady (client (step sys (LoadEvent k))) = true) /\
  readyRef (client sys) = isReady (client sys) /\
  (forall more,
     Forall (miniapp_step o) more ->
     isReady (client sys) = true ->
     isReady (client (run more sys)) = true) /\
  onReady_calls (user (client sys)) <= 1 /\
  (isReady (client sys) = true <-> onReady_calls (user (client sys)) = 1).
Proof.
  intros Hw Htrace o sys.
  pose proof (useMiniapp_inv t w Hw) as Hinv0.
  destruct (run_advance t trace _ Htrace Hinv0) as [Hinv _].
  assert (Hrwl : ready_when_loaded sys).
  { apply (run_rwl t trace _ Htrace Hinv0). intros inst [= <-] [H|H]; discriminate H. }
  fold sys in Hinv. pose proof Hinv as (_ & [Href Hcount] & Hloaded & _).
  split; [|split; [|split; [|split; [|split; [|split; [|split]]]]]].
  - split; [exact Hloaded|]. intros (inst & Hi & Hl & _). apply (Hrwl inst Hi). by left.
  - exact (activate_with_bridge_ready t sys Hinv Hrwl).
  - intros k el. exact (activate_with_marker_ready t sys k el Hinv).
  - intros k el. exact (dispatch_load_ready t sys k el Hinv).
  - exact Href.
  - intros more Hmore. apply (run_advance t more sys Hmore Hinv).
  - rewrite Hcount. destruct (isReady (client sys)); lia.
  - rewrite Hcount. destruct (isReady (client sys)); split; (done || lia).
Qed.

Lemma readiness_latch_witness :
  let o := spy_options None in
  let trace := [Activate 0 (loader_options o); LoadEvent 0; LoadEvent 0] in
  Forall (miniapp_step o) trace /\
  isReady (client (run trace (useMiniapp (blank_page None) []))) = true /\
  onReady_calls (user (client (run trace (useMiniapp (blank_page None) [])))) = 1.
Proof.
  intros o trace.
  assert (Htrace : Forall (miniapp_step o) trace).
  { repeat constructor. }
  split; [exact Htrace|].
  pose proof (readiness_latch None (blank_page None) trace (List.Forall_nil _) Htrace) as H.
  cbv zeta in H. destruct H as (Hset & _ & _ & _ & _ & _ & _ & Hcalls).
  assert (Hready : isReady (client (run trace (useMiniapp (blank_page None) []))) = true).
  { apply Hset. eexists. split; [reflexivity|]. split; reflexivity. }
  split; [exact Hready | exact (proj1 Hcalls Hready)].
Defined.

(** ** The life of [useMiniapp] through its renders *)

Section MiniappRenders.

Context {U : Type}.
Variable o : GopayMiniappOptions U.
Abbreviation lo := (loader_options o).
Abbreviation MS := (Miniapp.State U).
Implicit Types (front tail : list (ScriptElement MS)) (inst : Instance) (m : MS).

Lemma rerender_S (fuel : nat) (sys : System MS) :
  rerender (S fuel) o sys =
  if decide (hook_view (step sys (Activate 0 lo)) = hook_view sys)
  then step sys (Activate 0 lo)
  else rerender fuel o (step sys (Activate 0 lo)).
Proof. reflexivity. Qed.

Lemma querySelector_front_tail front tail :
  sdk_scripts front = 0 -> sdk_scripts tail = 0 -> querySelector (front ++ tail) = None.
Proof.
  intros Hf Ht. apply querySelector_none. unfold sdk_scripts in *.
  rewrite filter_app, length_app. lia.
Qed.

Lemma lookup_tail front tail i : (front ++ tail) !! (length front + i) = tail !! i.
Proof. rewrite lookup_app_r by lia. f_equal. lia. Qed.

Lemma first_run_creates front tail cs inst m :
  loadedRef inst = false -> cleanup inst = false ->
  sdk_scripts front = 0 -> sdk_scripts tail = 0 ->
  step (page front tail cs inst m) (Activate 0 lo) =
  page front (tail ++ [new_script 0 lo]) cs
    (set_cleanup true (set_scriptRef (length front + length tail) (setIsLoading true inst))) m.
Proof.
  intros Hl Hc Hf Ht. unfold page. simpl. unfold run_cleanup. simpl. rewrite Hc.
  unfold useJSAPILoader. simpl. rewrite Hl.
  rewrite (querySelector_front_tail _ _ Hf Ht).
  unfold with_document, with_instance. simpl. by rewrite length_app, app_assoc.
Qed.

Lemma rerun_creates front tail cs inst m i el :
  loadedRef inst = false -> cleanup inst = true ->
  scriptRef inst = Some (length front + i) ->
  tail !! i = Some el -> in_document el = true ->
  sdk_scripts front = 0 -> sdk_scripts (alter detach i tail) = 0 ->
  step (page front tail cs inst m) (Activate 0 lo) =
  page front (alter detach i tail ++ [new_script 0 lo]) cs
    (set_cleanup true
       (set_scriptRef (length front + length tail)
          (setIsLoading true (set_cleanup false inst)))) m.
Proof.
  intros Hl Hc Hr Hi Hin Hf Ht. unfold page. simpl.
  unfold run_cleanup, effect_cleanup. simpl. rewrite Hc, Hr. simpl.
  rewrite lookup_tail, Hi, Hin.
  unfold with_instance, with_element, with_document. simpl. rewrite alter_app_r.
  unfold useJSAPILoader. simpl. rewrite Hl.
  rewrite (querySelector_front_tail _ _ Hf Ht).
  unfold with_document, with_instance. simpl.
  by rewrite length_app, length_alter, app_assoc.
Qed.

Lemma rerun_loaded front tail cs inst m i el :
  loadedRef inst = true -> cleanup inst = true ->
  scriptRef inst = Some (length front + i) ->
  tail !! i = Some el -> in_document el = true ->
  step (page front tail cs inst m) (Activate 0 lo) =
  page front (alter detach i tail) cs (set_cleanup false (set_cleanup false inst)) m.
Proof.
  intros Hl Hc Hr Hi Hin. unfold page. simpl.
  unfold run_cleanup, effect_cleanup. simpl. rewrite Hc, Hr. simpl.
  rewrite lookup_tail, Hi, Hin.
  unfold with_instance, with_element, with_document. simpl. rewrite alter_app_r.
  unfold useJSAPILoader. simpl. by rewrite Hl.
Qed.

Lemma load_of_own_script front tail cs inst m i el :
  tail !! i = Some el ->
  onload el = Some {| owner := 0; captured_onLoad := onLoad lo |} ->
  load_listeners el = [] ->
  step (page front tail cs inst m) (LoadEvent (length front + i)) =
  page front (alter set_data_loaded i tail) cs
    (setIsLoading false (mark_loaded inst)) (miniapp_onLoad o m).
Proof.
  intros Hi Hon Hls. unfold page. simpl. unfold dispatch_load. simpl.
  rewrite lookup_tail, Hi, Hon, Hls. simpl.
  unfold own_onload, with_client, with_instance, with_element, with_document. simpl.
  by rewrite alter_app_r.
Qed.

Lemma error_of_own_script front tail cs inst m i el err :
  tail !! i = Some el ->
  onerror el = Some {| e_owner := 0; captured_onError := onError lo |} ->
  step (page front tail cs inst m) (ErrorEvent (length front + i) err) =
  page front tail (cs ++ [(errorMsg, err)])
    (setIsLoading false (setError errorMsg inst)) (miniapp_onError o err m).
Proof.
  intros Hi Hon. unfold page. simpl. unfold dispatch_error. simpl.
  by rewrite lookup_tail, Hi, Hon.
Qed.

Lemma miniapp_onError_view err m :
  isReady (miniapp_onError o err m) = isReady m /\
  readyRef (miniapp_onError o err m) = readyRef m /\
  user (miniapp_onError o err m) =
    match Miniapp.onError o with
    | Some g => g err (user m)
    | None => user m
    end.
Proof. unfold miniapp_onError. by destruct (Miniapp.onError o). Qed.

(** X15: the life of the hook, renders included, on a page without the
    bridge and without a script for the SDK URL, for any bound of at least
    two renders per change.
    - Mount: the effect runs, the component renders again and the effect
      runs again; the hook then reports not ready and loading, the document
      holds the first script created, detached, and the second, attached;
      no callback of the caller has run.
    - If the load event of the attached script then fires: the hook reports
      ready and not loading, [onReady] has been invoked once, and the
      render that follows has removed the script from the document.
    - If instead its error event fires: the caller's [onError] has been
      invoked once with the event and the hook reports the load-failure
      message; the two renders that follow have removed the failed script
      and created two more, the last one attached, and the hook reports
      loading again. *)
Theorem miniapp_lifecycle (w : Window MS) (u : U) (err : Event) (n : nat) :
  gpContainer w = None ->
  sdk_scripts (document w) = 0 ->
  let k := length (document w) in
  let script := new_script 0 lo in
  let fuel := S (S n) in
  let mounted := rerender fuel o (useMiniapp w u) in
  let loaded := react fuel o (LoadEvent (k + 1)) mounted in
  let failed := react fuel o (ErrorEvent (k + 1) err) mounted in
  miniapp_result mounted =
    Some {| res_isReady := false; res_isLoading := true; res_error := None |} /\
  document (window mounted) = document w ++ [detach script; script] /\
  user (client mounted) = u /\
  miniapp_result loaded =
    Some {| res_isReady := true; res_isLoading := false; res_error := None |} /\
  document (window loaded) =
    document w ++ [detach script; detach (set_data_loaded script)] /\
  user (client loaded) = opt_call (onReady o) u /\
  miniapp_result failed =
    Some {| res_isReady := false; res_isLoading := true; res_error := Some errorMsg |} /\
  document (window failed) =
    document w ++ [detach script; detach script; detach script; script] /\
  user (client failed) =
    match Miniapp.onError o with
    | Some g => g err u
    | None => u
    end.
Proof.
  destruct w as [g front cs]. intros Hg Hfront k script fuel. simpl in Hg, Hfront.
  subst g. cbv zeta.
  set (i1 := set_cleanup true (set_scriptRef (k + 0) (setIsLoading true fresh))).
  set (i2 := set_cleanup true (set_scriptRef (k + 1) (setIsLoading true (set_cleanup false i1)))).
  assert (H0 : useMiniapp {| gpContainer := None; document := front; console := cs |} u =
               page front [] cs fresh (not_ready u)).
  { unfold useMiniapp, mount, page. simpl. by rewrite app_nil_r. }
  assert (H1 : step (page front [] cs fresh (not_ready u)) (Activate 0 lo) =
               page front [script] cs i1 (not_ready u)).
  { by rewrite first_run_creates. }
  assert (H2 : step (page front [script] cs i1 (not_ready u)) (Activate 0 lo) =
               page front [detach script; script] cs i2 (not_ready u)).
  { by rewrite (rerun_creates front [script] cs i1 (not_ready u) 0 script). }
  assert (Hmounted : rerender fuel o
                       (useMiniapp {| gpContainer := None; document := front; console := cs |} u)
                     = page front [detach script; script] cs i2 (not_ready u)).
  { subst fuel. rewrite H0, rerender_S, H1.
    rewrite decide_False by discriminate.
    rewrite rerender_S, H2. by rewrite decide_True. }
  rewrite Hmounted.
  set (mounted := page front [detach script; script] cs i2 (not_ready u)).
  (* the load event and the render it causes *)
  set (i3 := setIsLoading false (mark_loaded i2)).
  assert (H3 : step mounted (LoadEvent (k + 1)) =
               page front [detach script; set_data_loaded script] cs i3
                 (miniapp_onLoad o (not_ready u))).
  { subst mounted. by rewrite (load_of_own_script front _ cs i2 _ 1 script). }
  assert (H4 : step (page front [detach script; set_data_loaded script] cs i3
                       (miniapp_onLoad o (not_ready u))) (Activate 0 lo) =
               page front [detach script; detach (set_data_loaded script)] cs
                 (set_cleanup false (set_cleanup false i3))
                 (miniapp_onLoad o (not_ready u))).
  { by rewrite (rerun_loaded front _ cs i3 _ 1 (set_data_loaded script)). }
  assert (Hloaded : react fuel o (LoadEvent (k + 1)) mounted =
                    page front [detach script; detach (set_data_loaded script)] cs
                      (set_cleanup false (set_cleanup false i3))
                      (miniapp_onLoad o (not_ready u))).
  { unfold react. rewrite H3. rewrite decide_False by discriminate.
    subst fuel. rewrite rerender_S, H4. by rewrite decide_True. }
  (* the error event and the renders it causes *)
  destruct (miniapp_onError_view err (not_ready u)) as (Hready & _ & Huser).
  set (m' := miniapp_onError o err (not_ready u)) in *.
  set (i5 := setIsLoading false (setError errorMsg i2)).
  assert (H5 : step mounted (ErrorEvent (k + 1) err) =
               page front [detach script; script] (cs ++ [(errorMsg, err)]) i5 m').
  { subst mounted. by rewrite (error_of_own_script front _ cs i2 _ 1 script). }
  set (i6 := set_cleanup true (set_scriptRef (k + 2) (setIsLoading true (set_cleanup false i5)))).
  assert (H6 : step (page front [detach script; script] (cs ++ [(errorMsg, err)]) i5 m')
                 (Activate 0 lo) =
               page front [detach script; detach script; script]
                 (cs ++ [(errorMsg, err)]) i6 m').
  { by rewrite (rerun_creates front _ _ i5 m' 1 script). }
  set (i7 := set_cleanup true (set_scriptRef (k + 3) (setIsLoading true (set_cleanup false i6)))).
  assert (H7 : step (page front [detach script; detach script; script]
                       (cs ++ [(errorMsg, err)]) i6 m') (Activate 0 lo) =
               page front [detach script; detach script; detach script; script]
                 (cs ++ [(errorMsg, err)]) i7 m').
  { by rewrite (rerun_creates front _ _ i6 m' 2 script). }
  assert (Hfailed : react fuel o (ErrorEvent (k + 1) err) mounted =
                    page front [detach script; detach script; detach script; script]
                      (cs ++ [(errorMsg, err)]) i7 m').
  { unfold react. rewrite H5.
    rewrite decide_False by (unfold hook_view; simpl; rewrite Hready; discriminate).
    subst fuel. rewrite rerender_S, H6.
    rewrite decide_False by (unfold hook_view; simpl; discriminate).
    rewrite rerender_S, H7.
    by rewrite decide_True. }
  rewrite Hloaded, Hfailed.
  split; [reflexivity|]. split; [reflexivity|]. split; [reflexivity|].
  split; [reflexivity|]. split; [reflexivity|]. split; [reflexivity|].
  split; [|split; [reflexivity | exact Huser]].
  unfold miniapp_result. simpl. by rewrite Hready.
Qed.

End MiniappRenders.

Lemma miniapp_lifecycle_witness :
  let o := spy_options None in
  let mounted := rerender 2 o (useMiniapp (blank_page None) []) in
  user (client (react 2 o (ErrorEvent 1 (NewEvent "error")) mounted)) =
    [OnErrorCalled (NewEvent "error")] /\
  user (client (react 2 o (LoadEvent 1) mounted)) = [OnReadyCalled].
Proof.
  intros o mounted.
  pose proof (miniapp_lifecycle o (blank_page None) [] (NewEvent "error") 0
                eq_refl eq_refl) as H.
  cbv zeta in H. destruct H as (_ & _ & _ & _ & _ & Hload & _ & _ & Herr).
  split; [exact Herr | exact Hload].
Defined.

(** ** [callWithCallbacks] and [call] *)

Lemma run_sync_quiet (cb : Delivery -> option Thrown) (b : BridgeSync) :
  (forall d, cb d = None) -> run_sync cb b = run_sync (fun _ => None) b.
Proof.
  intros Hcb. induction b as [|err|d next IH]; simpl; [reflexivity..|].
  by rewrite Hcb, IH.
Qed.

(** X1: when the caller's two callbacks do not throw, [callWithCallbacks] is
    [call] with callbacks in place of the promise: on the same bridge and
    arguments both invoke the primitive with the same arguments, the
    callbacks the one invokes are, in order, the settlements the other
    makes ([resolve] as the success callback, [reject] as the failure
    callback), before returning and afterwards, and no exception leaves
    [callWithCallbacks]. *)
Theorem callbacks_mirror_promise {U C : Type} (o : GopayMiniappOptions U)
    (g : option InteractiveContainer) (w : Window C) (cls meth : string)
    (ps : option (gmap string JSValue)) (t : option Z)
    (successCallback : GopaySuccessResponse -> option Thrown)
    (failureCallback : GopayErrorResponse -> option Thrown) :
  (forall response, successCallback response = None) ->
  (forall error, failureCallback error = None) ->
  gpContainer w = passive <$> g ->
  let r := call o w cls meth ps t in
  let rc := callWithCallbacks_with o g cls meth ps successCallback failureCallback t in
  t_bridge_calls rc = bridge_calls r /\
  t_sync_callbacks rc = map as_callback (sync_settlements r) /\
  t_async_callbacks rc = map as_callback (async_settlements r) /\
  t_escapes rc = None /\
  t_sync_callbacks rc = sync_callbacks (callWithCallbacks o w cls meth ps t) /\
  t_async_callbacks rc = async_callbacks (callWithCallbacks o w cls meth ps t).
Proof.
  intros Hs Hf Hw. unfold call, callWithCallbacks, callWithCallbacks_with. rewrite Hw.
  destruct g as [gp|]; simpl.
  - rewrite run_sync_quiet by (intros d; destruct (callbacks_delivery d); simpl; auto).
    set (inside := run_sync _ _).
    rewrite map_app, !map_map.
    assert (Hmap : forall ds, map callbacks_delivery ds =
                              map (fun d => as_callback (call_delivery d)) ds).
    { intros ds. apply map_ext. intros d. symmetry. apply as_callback_delivery. }
    rewrite !Hmap. destruct (snd inside); repeat split; auto.
  - repeat split; auto.
Qed.

(** With a callback that throws the two differ: when the success callback
    throws while a bridge that lets exceptions through is delivering, the
    failure callback is invoked as well, with the CALL_EXCEPTION envelope,
    whereas [call] on the same bridge only resolves. *)
Example throwing_success_callback (response : GopaySuccessResponse) (err : Thrown)
    (failureCallback : GopayErrorResponse -> option Thrown) :
  let gp := delivering (SuccessChannel (SuccessResponse response)) in
  t_sync_callbacks
    (callWithCallbacks_with no_options (Some gp) "TestClass" "testMethod" None
       (fun _ => Some err) failureCallback None) =
    [SuccessCallback response; FailureCallback (CALL_EXCEPTION err)] /\
  sync_settlements
    (call no_options (blank_page (C:=unit) (Some (passive gp)))
       "TestClass" "testMethod" None None) =
    [Resolve response].
Proof. split; reflexivity. Qed.

Lemma callbacks_mirror_promise_witness :
  let gp := delivering (SuccessChannel (SuccessResponse successResponse)) in
  t_sync_callbacks
    (callWithCallbacks_with no_options (Some gp) "TestClass" "testMethod" None
       (fun _ => None) (fun _ => None) None) =
  map as_callback
    (sync_settlements
       (call no_options (blank_page (C:=unit) (Some (passive gp)))
          "TestClass" "testMethod" None None)).
Proof.
  intros gp.
  pose proof (callbacks_mirror_promise no_options (Some gp)
                (blank_page (C:=unit) (Some (passive gp)))
                "TestClass" "testMethod" None None (fun _ => None) (fun _ => None)
                (fun _ => eq_refl) (fun _ => eq_refl) eq_refl) as H.
  cbv zeta in H. destruct H as (_ & H & _). exact H.
Defined.
